(** * PhishTank ETL connector: a shallow embedding of [etl_connector.py]

    The development follows the source file top-down: Python values and
    CSV rows, the world the connector acts on (MongoDB collection, wall
    clock, network, standard output), then the methods of [PhishTankETL]
    ([_fetch_csv], [_clean_row], [_commit_batch], [run]) as computations
    in a state-and-exception monad over that world, and finally the
    properties of the pipeline: the transformer, the fetcher, the row
    cap, batching, write failures, the frame of the upserts and the
    second run over an unchanged feed. *)

From Stdlib Require Import ZArith Ascii String List Lia.
From stdpp Require Import gmap strings list fin_maps.

Open Scope string_scope.
Open Scope list_scope.
Open Scope Z_scope.

(** ** Python strings

    A [str] is modelled by [string]; its characters are the code points
    below 256 (Latin-1), which covers every character the connector
    tests for. *)

Module PyStr.

(** [str.isspace] on one character: TAB..CR, FS..US, SPACE, NEL, NBSP. *)
Definition isspace (c : ascii) : bool :=
  let n := N_of_ascii c in
  ((9 <=? n) && (n <=? 13) || (28 <=? n) && (n <=? 32)
   || (n =? 133) || (n =? 160))%N.

Fixpoint lstrip (s : string) : string :=
  match s with
  | EmptyString => EmptyString
  | String c s' => if isspace c then lstrip s' else s
  end.

Fixpoint rstrip (s : string) : string :=
  match s with
  | EmptyString => EmptyString
  | String c s' =>
      match rstrip s' with
      | EmptyString => if isspace c then EmptyString else String c EmptyString
      | r => String c r
      end
  end.

(** [s.strip()] *)
Definition strip (s : string) : string := rstrip (lstrip s).

(** [str.lower] on one character: A..Z and the Latin-1 capitals
    (0xC0..0xDE without the multiplication sign 0xD7) move up by 32. *)
Definition lower_char (c : ascii) : ascii :=
  let n := N_of_ascii c in
  if ((65 <=? n) && (n <=? 90)
      || (192 <=? n) && (n <=? 222) && negb (n =? 215))%N
  then ascii_of_N (n + 32) else c.

(** [s.lower()] *)
Fixpoint lower (s : string) : string :=
  match s with
  | EmptyString => EmptyString
  | String c s' => String (lower_char c) (lower s')
  end.

(** Truthiness of a string: [bool(s)]. *)
Definition truthy (s : string) : bool :=
  match s with EmptyString => false | _ => true end.

End PyStr.

(** ** Rows and documents *)

(** A field value of a row handed out by [csv.DictReader]: a string, or
    [None] for a column the line was too short to fill. (The surplus
    fields of a line that is too long sit under the key [None], which
    the connector never reads; they are left out.) *)
Inductive pyval : Type :=
| PyNone
| PyStr (s : string).

(** One CSV row: column name to field value. *)
Abbreviation RawRow := (gmap string pyval).

(** [datetime] values, as microseconds since the epoch. *)
Definition datetime : Type := Z.

(** Field values of a stored document. *)
Inductive bson : Type :=
| BNull
| BStr (s : string)
| BBool (b : bool)
| BDate (t : datetime).

#[global] Instance bson_eq_dec : EqDecision bson.
Proof. solve_decision. Defined.

#[global] Instance pyval_eq_dec : EqDecision pyval.
Proof. solve_decision. Defined.

(** A document: field name to value. *)
Abbreviation Doc := (gmap string bson).

(** Exceptions that leave the connector's functions. *)
Inductive exn : Type :=
| AttributeError   (* a method looked up on None *)
| ValueError       (* time.sleep with a negative length *)
| RuntimeError.    (* "Failed to download data after multiple attempts." *)

Inductive Result (A : Type) : Type :=
| Ok (a : A)
| Raise (e : exn).
Arguments Ok {A} a.
Arguments Raise {A} e.

(** [row.get(key, "")] *)
Definition row_get (row : RawRow) (key : string) : pyval :=
  default (PyStr "") (row !! key).

(** [v.strip()], defined on strings only. *)
Definition py_strip (v : pyval) : Result string :=
  match v with
  | PyStr s => Ok (PyStr.strip s)
  | PyNone => Raise AttributeError
  end.

(** [v.lower()], defined on strings only. *)
Definition py_lower (v : pyval) : Result string :=
  match v with
  | PyStr s => Ok (PyStr.lower s)
  | PyNone => Raise AttributeError
  end.

(** [bool(row.get(key))]: None and the empty string are falsy. *)
Definition row_truthy (row : RawRow) (key : string) : option string :=
  match row !! key with
  | Some (PyStr s) => if PyStr.truthy s then Some s else None
  | _ => None
  end.

(** [x in ("yes", "y", "true")] *)
Definition in_truthy_tokens (x : string) : bool :=
  bool_decide (x ∈ ["yes"; "y"; "true"]).


(** ** The world the connector acts on *)

(** [UpdateOne(filter, {"$set": fields}, upsert=...)] with the filter
    [{"phish_id": uo_filter}]. *)
Record UpdateOne : Type := mkUpdateOne {
  uo_filter : string;
  uo_set : Doc;
  uo_upsert : bool
}.

(** The lines the connector prints. *)
Inductive Line : Type :=
| LFetchFailed (attempt : Z)        (* [ERROR] Fetch attempt {n} failed *)
| LRetrying (wait : Z)              (* [INFO] Retrying in {wait}s... *)
| LBulkWriteError (details : list string)  (* [WARN] Bulk write error *)
| LDone (ins upd skip total : Z).   (* [DONE] Inserted: .., Total: .. *)

(** Observable actions, in the order they happen. *)
Inductive Event : Type :=
| EvGet                              (* requests.get(self.source_url, ..) *)
| EvSleep (secs : Z)                 (* time.sleep(secs) *)
| EvPrint (l : Line)                 (* print(..) *)
| EvBulkWrite (ops : list UpdateOne). (* self.collection.bulk_write(ops) *)

Record World : Type := mkWorld {
  collection : gmap string Doc;  (* self.collection, by phish_id *)
  ticks : nat;                   (* readings of the wall clock so far *)
  requests : nat;                (* HTTP requests sent so far *)
  trace : list Event
}.

Definition set_collection (c : gmap string Doc) (w : World) : World :=
  mkWorld c (ticks w) (requests w) (trace w).
Definition emit (e : Event) (w : World) : World :=
  mkWorld (collection w) (ticks w) (requests w) (trace w ++ [e])%list.

(** Computations that read and change the world and may raise. *)
Definition M (A : Type) : Type := World -> Result A * World.

#[global] Instance M_ret : MRet M := fun A a w => (Ok a, w).
#[global] Instance M_bind : MBind M := fun A B f m w =>
  match m w with
  | (Ok a, w') => f a w'
  | (Raise e, w') => (Raise e, w')
  end.

Definition raise {A : Type} (e : exn) : M A := fun w => (Raise e, w).
Definition lift {A : Type} (r : Result A) : M A := fun w => (r, w).
Definition print (l : Line) : M unit := fun w => (Ok tt, emit (EvPrint l) w).

(** [time.sleep(secs)]: a negative length is a ValueError. *)
Definition sleep (secs : Z) : M unit :=
  if secs <? 0 then raise ValueError
  else fun w => (Ok tt, emit (EvSleep secs) w).

(** [range(n)] *)
Definition range (n : Z) : list Z := map Z.of_nat (seq 0 (Z.to_nat n)).

(** The outcome of one write of an unordered bulk. *)
Inductive WriteOutcome : Type := Upserted | Matched | NoMatch | WriteFailed.

(** [BulkWriteResult], the two counts the connector reads. *)
Record BulkWriteResult : Type := mkBulkWriteResult {
  upserted_count : Z;
  matched_count : Z
}.

(** What [bulk_write] gives back: a result, or BulkWriteError with the
    keys of the writes that failed. *)
Inductive BulkOutcome : Type :=
| BulkOk (r : BulkWriteResult)
| BulkWriteError (details : list string).

(** Local variables of [run]. *)
Record Locals : Type := mkLocals {
  pending_ops : list UpdateOne;
  inserted : Z;
  updated : Z;
  skipped : Z;
  processed : Z
}.

Inductive Flow : Type := Continue | Break.

(** Puts a write of rank [r] in its place among writes sorted by rank:
    before the first one whose rank is not smaller. *)
Fixpoint place (r : nat) (op : UpdateOne) (l : list (nat * UpdateOne))
  : list (nat * UpdateOne) :=
  match l with
  | [] => [(r, op)]
  | (r', op') :: l' =>
      if (r <=? r')%nat then (r, op) :: l else (r', op') :: place r op l'
  end.

(** The writes of a bulk in the order of the ranks given to their
    positions; writes of equal rank keep the order of the list. Every
    order of the writes is that of some ranking. *)
Definition server_order (rank : nat -> nat) (ops : list UpdateOne)
  : list UpdateOne :=
  (foldr (fun p acc => place (rank p.1) p.2 acc) [] (imap pair ops)).*2.

Module PhishTankETL.

Section Connector.

(** [datetime.fromisoformat]; [None] stands for its ValueError. *)
Variable fromisoformat : string -> option datetime.
(** The wall clock: the n-th reading of [datetime.now(timezone.utc)]. *)
Variable utcnow : nat -> datetime.
(** The network: the n-th request either yields the rows of the feed
    (a DictReader over the response) or raises RequestException. The
    rows are a finite list, read one at a time; a connection that drops
    in mid-stream is not modelled. *)
Variable http_get : nat -> option (list RawRow).
(** The server: whether it rejects a write, given the collection. *)
Variable write_error : gmap string Doc -> UpdateOne -> bool.
(** The server: the rank it gives the write at each position of an
    unordered bulk, given the collection; it executes the writes by
    rank. *)
Variable write_rank : gmap string Doc -> list UpdateOne -> nat -> nat.

(** [requests.get(..); resp.raise_for_status(); csv.DictReader(..)] *)
Definition requests_get : M (option (list RawRow)) := fun w =>
  (Ok (http_get (requests w)),
   emit EvGet (mkWorld (collection w) (ticks w) (S (requests w)) (trace w))).

(** [datetime.now(timezone.utc)] *)
Definition datetime_now : M datetime := fun w =>
  (Ok (utcnow (ticks w)),
   mkWorld (collection w) (S (ticks w)) (requests w) (trace w)).

(** *** [_fetch_csv] *)

(** The [for attempt in range(retries)] loop, over the attempts left. *)
Fixpoint fetch_attempts (retries backoff : Z) (attempts : list Z)
  : M (list RawRow) :=
  match attempts with
  | [] => raise RuntimeError
  | attempt :: later =>
      resp ← requests_get;
      match resp with
      | Some reader => mret reader
      | None =>
          print (LFetchFailed (attempt + 1));;
          (if attempt <? retries - 1
           then let wait := backoff * (attempt + 1) in
                print (LRetrying wait);; sleep wait
           else mret tt);;
          fetch_attempts retries backoff later
      end
  end.

Definition _fetch_csv (retries backoff : Z) : M (list RawRow) :=
  fetch_attempts retries backoff (range retries).

(** *** [_clean_row] *)

Definition _clean_row (row : RawRow) : M (option Doc) :=
  pid ← lift (py_strip (row_get row "phish_id"));
  link ← lift (py_strip (row_get row "url"));
  if negb (PyStr.truthy pid) || negb (PyStr.truthy link) then mret None
  else
    let submitted_time :=
      match row_truthy row "submission_time" with
      | Some s => fromisoformat s
      | None => None
      end in
    verified ← lift (py_lower (row_get row "verified"));
    now ← datetime_now;
    mret (Some ({[ "phish_id" := BStr pid;
                   "url" := BStr link;
                   "submission_time" := from_option BDate BNull submitted_time;
                   "verified" := BBool (in_truthy_tokens verified);
                   "ingested_at" := BDate now ]} : Doc)).

(** *** The collection *)

(** Modelled from the spec: the document store collaborator (pymongo's
    [bulk_write] is not part of the repository).  One write of
    [UpdateOne({"phish_id": k}, {"$set": d}, upsert)]: the document whose
    key is [k] gets the fields of [d] and keeps its other fields; when
    there is none and [upsert] is set, it is created from the filter and
    [d]. A rejected write changes nothing. *)
Definition update_one (coll : gmap string Doc) (op : UpdateOne)
  : gmap string Doc * WriteOutcome :=
  if write_error coll op then (coll, WriteFailed)
  else match coll !! uo_filter op with
       | Some d => (<[uo_filter op := uo_set op ∪ d]> coll, Matched)
       | None =>
           if uo_upsert op
           then (<[uo_filter op :=
                     uo_set op ∪ {[ "phish_id" := BStr (uo_filter op) ]}]> coll,
                 Upserted)
           else (coll, NoMatch)
       end.

(** Modelled from the spec: the server attempts every write of the
    list it is given, one after the other, counts the created and the
    matched documents, and collects the failed ones. *)
Fixpoint bulk_exec (coll : gmap string Doc) (ops : list UpdateOne)
    (r : BulkWriteResult) (failed : list string)
  : gmap string Doc * BulkWriteResult * list string :=
  match ops with
  | [] => (coll, r, failed)
  | op :: ops' =>
      let '(coll', o) := update_one coll op in
      match o with
      | Upserted =>
          bulk_exec coll' ops'
            (mkBulkWriteResult (upserted_count r + 1) (matched_count r)) failed
      | Matched =>
          bulk_exec coll' ops'
            (mkBulkWriteResult (upserted_count r) (matched_count r + 1)) failed
      | NoMatch => bulk_exec coll' ops' r failed
      | WriteFailed => bulk_exec coll' ops' r (failed ++ [uo_filter op])%list
      end
  end.

(** Modelled from the spec: [bulk_write(ops, ordered=False)] is an
    unordered bulk: the server executes the writes in an order of its
    choosing, with no guarantee between the records of a batch. It
    raises BulkWriteError after the bulk when a write failed; the writes
    that succeeded stay applied. *)
Definition bulk_write (coll : gmap string Doc) (ops : list UpdateOne)
  : gmap string Doc * BulkOutcome :=
  let '(coll', r, failed) :=
    bulk_exec coll (server_order (write_rank coll ops) ops)
      (mkBulkWriteResult 0 0) [] in
  (coll', match failed with
          | [] => BulkOk r
          | _ => BulkWriteError failed
          end).

(** [self.collection.bulk_write(batch_ops, ordered=False)] *)
Definition collection_bulk_write (ops : list UpdateOne) : M BulkOutcome :=
  fun w =>
    let '(coll', o) := bulk_write (collection w) ops in
    (Ok o, set_collection coll' (emit (EvBulkWrite ops) w)).

(** *** [_commit_batch] *)

Definition _commit_batch (batch_ops : list UpdateOne) : M (Z * Z) :=
  o ← collection_bulk_write batch_ops;
  match o with
  | BulkOk result => mret (upserted_count result, matched_count result)
  | BulkWriteError details =>
      print (LBulkWriteError details);; mret (0, 0)
  end.

(** *** [run] *)

(** [max_rows and processed >= max_rows]: None and 0 are falsy. *)
Definition cap_reached (max_rows : option Z) (processed : Z) : bool :=
  match max_rows with
  | None => false
  | Some m => negb (m =? 0) && (processed >=? m)
  end.

(** [UpdateOne({"phish_id": doc["phish_id"]}, {"$set": doc}, upsert=True)] *)
Definition upsert_of (doc : Doc) : UpdateOne :=
  mkUpdateOne
    (match doc !! "phish_id" with Some (BStr s) => s | _ => "" end)
    doc true.

(** The body of [for row in reader]. *)
Definition loop_body (max_rows : option Z) (batch_size : Z)
    (row : RawRow) (l : Locals) : M (Flow * Locals) :=
  if cap_reached max_rows (processed l) then mret (Break, l)
  else
    doc ← _clean_row row;
    match doc with
    | None =>
        mret (Continue,
              mkLocals (pending_ops l) (inserted l) (updated l)
                       (skipped l + 1) (processed l + 1))
    | Some d =>
        let pending := (pending_ops l ++ [upsert_of d])%list in
        if Z.of_nat (length pending) >=? batch_size
        then
          '(ins, upd) ← _commit_batch pending;
          mret (Continue,
                mkLocals [] (inserted l + ins) (updated l + upd)
                         (skipped l) (processed l + 1))
        else
          mret (Continue,
                mkLocals pending (inserted l) (updated l)
                         (skipped l) (processed l + 1))
    end.

(** [for row in reader]: every turn takes the next row off the reader
    before the body runs; the rows left on the reader are returned with
    the locals. *)
Fixpoint for_rows (max_rows : option Z) (batch_size : Z)
    (reader : list RawRow) (l : Locals) : M (Locals * list RawRow) :=
  match reader with
  | [] => mret (l, [])
  | row :: rest =>
      '(flow, l') ← loop_body max_rows batch_size row l;
      match flow with
      | Break => mret (l', rest)
      | Continue => for_rows max_rows batch_size rest l'
      end
  end.

(** [if pending_ops: ...], the final flush. *)
Definition flush (l : Locals) : M Locals :=
  match pending_ops l with
  | [] => mret l
  | _ =>
      '(ins, upd) ← _commit_batch (pending_ops l);
      mret (mkLocals (pending_ops l) (inserted l + ins) (updated l + upd)
                     (skipped l) (processed l))
  end.

(** [run] once the reader is there: loop, flush, report. The rows left
    unread on the reader are returned for inspection. *)
Definition ingest (max_rows : option Z) (batch_size : Z)
    (reader : list RawRow) : M (list RawRow) :=
  '(l, unread) ← for_rows max_rows batch_size reader (mkLocals [] 0 0 0 0);
  l' ← flush l;
  print (LDone (inserted l') (updated l') (skipped l') (processed l'));;
  mret unread.

Definition run (max_rows : option Z) (batch_size : Z) : M unit :=
  reader ← _fetch_csv 3 5;
  ingest max_rows batch_size reader;;
  mret tt.

End Connector.

End PhishTankETL.
Import PhishTankETL.

(** ** Vocabulary of the properties *)

(** The trimmed required field of a row ([""] when the column is not
    there). *)
Definition trimmed (row : RawRow) (key : string) : string :=
  match row !! key with
  | Some (PyStr s) => PyStr.strip s
  | _ => ""
  end.

(** A field that is a string or absent, as in a row whose line filled
    every column of the header. *)
Definition not_null (row : RawRow) (key : string) : bool :=
  match row !! key with
  | Some PyNone => false
  | _ => true
  end.

(** The record built from the cleaned fields and the time of ingestion. *)
Definition record (pid link : string) (submitted : option datetime)
    (verified : string) (now : datetime) : Doc :=
  {[ "phish_id" := BStr pid;
     "url" := BStr link;
     "submission_time" := from_option BDate BNull submitted;
     "verified" := BBool (in_truthy_tokens verified);
     "ingested_at" := BDate now ]}.

(** [_clean_row] without the clock: what a row becomes, as a function of
    the time of ingestion. *)
Definition transform (fromisoformat : string -> option datetime)
    (row : RawRow) : Result (option (datetime -> Doc)) :=
  match py_strip (row_get row "phish_id") with
  | Raise e => Raise e
  | Ok pid =>
      match py_strip (row_get row "url") with
      | Raise e => Raise e
      | Ok link =>
          if negb (PyStr.truthy pid) || negb (PyStr.truthy link) then Ok None
          else
            match py_lower (row_get row "verified") with
            | Raise e => Raise e
            | Ok v =>
                Ok (Some (record pid link
                            (match row_truthy row "submission_time" with
                             | Some s => fromisoformat s
                             | None => None
                             end) v))
            end
      end
  end.


(** What the record's [verified] is to be: whether the case-folded field
    is one of the three tokens; false when the field is not there. *)
Definition verified_flag (row : RawRow) : bool :=
  match row !! "verified" with
  | Some (PyStr v) =>
      bool_decide (PyStr.lower v = "yes" ∨ PyStr.lower v = "y"
                   ∨ PyStr.lower v = "true")
  | _ => false
  end.

(** The world after one reading of the clock. *)
Definition tick (w : World) : World :=
  mkWorld (collection w) (S (ticks w)) (requests w) (trace w).

(** The five fields of a normalized record. *)
Definition record_fields : list string :=
  ["phish_id"; "url"; "submission_time"; "verified"; "ingested_at"].

(** The network and timer actions of a trace, prints left out. *)
Definition net_events (tr : list Event) : list Event :=
  List.filter (fun e => match e with EvPrint _ => false | _ => true end) tr.

(** The number of connection attempts in a trace. *)
Definition attempts (tr : list Event) : nat :=
  length (List.filter (fun e => match e with EvGet => true | _ => false end) tr).

(** The lengths of the suspensions in a trace, in order. *)
Definition sleeps (tr : list Event) : list Z :=
  flat_map (fun e => match e with EvSleep secs => [secs] | _ => [] end) tr.

(** Attempts with a wait of [backoff * i] after the i-th, but none after
    the last. *)
Definition attempts_with_backoff (retries backoff : Z) : list Event :=
  removelast
    (flat_map (fun i => [EvGet; EvSleep (backoff * Z.of_nat i)])
              (seq 1 (Z.to_nat retries))).

(** A row whose fields read by the transformer are strings or absent. *)
Definition string_valued (row : RawRow) : bool :=
  not_null row "phish_id" && not_null row "url" && not_null row "verified".

(** The counts [_commit_batch] reports for an outcome of the bulk. *)
Definition reported_counts (o : BulkOutcome) : Z * Z :=
  match o with
  | BulkOk r => (upserted_count r, matched_count r)
  | BulkWriteError _ => (0, 0)
  end.

(** The locals after a skipped row. *)
Definition skip_row (l : Locals) : Locals :=
  mkLocals (pending_ops l) (inserted l) (updated l)
           (skipped l + 1) (processed l + 1).

(** The locals after an accepted row that does not fill the batch. *)
Definition keep_row (pending : list UpdateOne) (l : Locals) : Locals :=
  mkLocals pending (inserted l) (updated l) (skipped l) (processed l + 1).

(** The locals after an accepted row that fills the batch. *)
Definition commit_row (counts : Z * Z) (l : Locals) : Locals :=
  mkLocals [] (inserted l + counts.1) (updated l + counts.2)
           (skipped l) (processed l + 1).

(** The locals [run] starts from. *)
Definition fresh : Locals := mkLocals [] 0 0 0 0.

(** The summary a finished run printed last, if any:
    (inserted, updated, skipped, processed). *)
Definition reported (w : World) : option (Z * Z * Z * Z) :=
  match last (trace w) with
  | Some (EvPrint (LDone ins upd skip total)) => Some (ins, upd, skip, total)
  | _ => None
  end.

(** The batches handed to [bulk_write] along a trace, in order. *)
Definition commits (tr : list Event) : list (list UpdateOne) :=
  flat_map (fun e => match e with EvBulkWrite ops => [ops] | _ => [] end) tr.

(** The rows a loop gets to process when it starts with [done] rows
    processed: all of them without a cap (unset or 0), and as many as the
    cap leaves room for otherwise. *)
Definition rows_within (max_rows : option Z) (done : Z)
    (reader : list RawRow) : list RawRow :=
  match max_rows with
  | None => reader
  | Some m => if m =? 0 then reader else take (Z.to_nat (m - done)) reader
  end.

(** The upsert intents of the accepted rows among [rows], the first
    accepted one being stamped with the [t]-th reading of the clock. *)
Fixpoint intents (fromisoformat : string -> option datetime)
    (utcnow : nat -> datetime) (rows : list RawRow) (t : nat)
  : list UpdateOne :=
  match rows with
  | [] => []
  | row :: rest =>
      match transform fromisoformat row with
      | Ok (Some mk) =>
          upsert_of (mk (utcnow t)) :: intents fromisoformat utcnow rest (S t)
      | _ => intents fromisoformat utcnow rest t
      end
  end.

(** The batch size the loop works with: a threshold below 1 commits
    every record on its own. *)
Definition effective_batch (batch_size : Z) : nat :=
  Z.to_nat (Z.max 1 batch_size).

(** The collection [c'] keeps every document of [c], with its fields
    outside the five record fields unchanged. *)
Definition framed (c c' : gmap string Doc) : Prop :=
  ∀ k doc, c !! k = Some doc ->
    ∃ doc', c' !! k = Some doc' ∧
            ∀ f, f ∉ record_fields -> doc' !! f = doc !! f.

(** An upsert intent of the pipeline: an upsert that sets exactly the
    five record fields, keyed by the [phish_id] it sets. *)
Definition record_intent (op : UpdateOne) : Prop :=
  uo_upsert op = true ∧
  dom (uo_set op) = list_to_set record_fields ∧
  uo_set op !! "phish_id" = Some (BStr (uo_filter op)).

(** What the frame property needs of the state of a run started in
    world [w0]. *)
Definition frame_invariant (w0 : World) (l : Locals) (w : World) : Prop :=
  Forall record_intent (pending_ops l) ∧
  framed (collection w0) (collection w) ∧
  ∃ new, trace w = trace w0 ++ new ∧
         Forall record_intent (concat (commits new)).

(** The upsert of the store interface: set the fields of the document
    whose key is the intent's, creating it if absent. *)
Definition upsert (c : gmap string Doc) (op : UpdateOne) : gmap string Doc :=
  <[uo_filter op := uo_set op ∪ default ∅ (c !! uo_filter op)]> c.



(** The fields the last intent for key [k] in [ops] sets, if any. *)
Fixpoint last_write (k : string) (ops : list UpdateOne) : option Doc :=
  match ops with
  | [] => None
  | op :: rest =>
      match last_write k rest with
      | Some d => Some d
      | None => if decide (uo_filter op = k) then Some (uo_set op) else None
      end
  end.

(** A server that executes every bulk in the order of its list. *)
Definition source_ordered
    (write_rank : gmap string Doc -> list UpdateOne -> nat -> nat) : Prop :=
  ∀ c ops i, write_rank c ops i = 0%nat.

(** A batch whose outcome does not depend on the order the server
    chooses: the server keeps the order of the list, or no two writes of
    the batch are for the same key. *)
Definition batch_safe
    (write_rank : gmap string Doc -> list UpdateOne -> nat -> nat)
    (b : list UpdateOne) : Prop :=
  source_ordered write_rank ∨ NoDup (map uo_filter b).

(** The keys of the accepted rows among [rows], in order. *)
Definition accepted_keys (fromisoformat : string -> option datetime)
    (rows : list RawRow) : list string :=
  map uo_filter (intents fromisoformat (fun _ => 0) rows 0).



(** What the counts of a run need of its state, when the run started in
    world [w0] with fresh locals and no write is rejected. *)
Definition store_invariant
    (write_rank : gmap string Doc -> list UpdateOne -> nat -> nat)
    (w0 : World) (l : Locals) (w : World) : Prop :=
  Forall record_intent (pending_ops l) ∧
  ∃ new,
    trace w = trace w0 ++ new ∧
    (Forall (batch_safe write_rank) (commits new) ->
     collection w
     = fold_left upsert (concat (commits new)) (collection w0)) ∧
    inserted l
    = Z.of_nat (size (collection w)) - Z.of_nat (size (collection w0)) ∧
    inserted l + updated l = Z.of_nat (length (concat (commits new))) ∧
    processed l - skipped l
    = Z.of_nat (length (concat (commits new)))
      + Z.of_nat (length (pending_ops l)).

(** The world after [_commit_batch ops]: the bulk is on the trace, the
    collection is what the bulk left, and a failed bulk is followed by
    the warning. *)
Definition after_commit (write_error : gmap string Doc -> UpdateOne -> bool)
    (write_rank : gmap string Doc -> list UpdateOne -> nat -> nat)
    (ops : list UpdateOne) (w : World) : World :=
  let w1 :=
    set_collection (bulk_write write_error write_rank (collection w) ops).1
      (emit (EvBulkWrite ops) w) in
  match (bulk_write write_error write_rank (collection w) ops).2 with
  | BulkOk _ => w1
  | BulkWriteError details => emit (EvPrint (LBulkWriteError details)) w1
  end.

(** Whether [_clean_row] calls a method on a null field of the row: the
    required fields are read first, [verified] only once both are found
    non-blank. *)
Definition null_read (row : RawRow) : bool :=
  negb (not_null row "phish_id")
  || negb (not_null row "url")
  || (negb (String.eqb (trimmed row "phish_id") "")
      && negb (String.eqb (trimmed row "url") "")
      && negb (not_null row "verified")).

(** Whether a required field of the row trims to nothing. *)
Definition blank_required (row : RawRow) : bool :=
  String.eqb (trimmed row "phish_id") ""
  || String.eqb (trimmed row "url") "".

(** The columns [_clean_row] reads. *)
Definition columns_read : list string :=
  ["phish_id"; "url"; "submission_time"; "verified"].

(** Whether an action is the printing of the final report. *)
Definition is_done (e : Event) : bool :=
  match e with
  | EvPrint (LDone _ _ _ _) => true
  | _ => false
  end.

(** A collection whose documents carry their key in [phish_id]. *)
Definition keyed (c : gmap string Doc) : Prop :=
  ∀ k d, c !! k = Some d -> d !! "phish_id" = Some (BStr k).

(** What the non-empty batch property needs of the state of a run
    started in world [w0]. *)
Definition nonempty_commits (w0 : World) (l : Locals) (w : World) : Prop :=
  ∃ new, trace w = trace w0 ++ new ∧
         Forall (fun b : list UpdateOne => b ≠ []) (commits new).

(** What the key property needs of the state of a run. *)
Definition keyed_invariant (l : Locals) (w : World) : Prop :=
  Forall record_intent (pending_ops l) ∧ keyed (collection w).

(** What the accounting needs of the locals of the loop. *)
Definition account_invariant (l : Locals) (w : World) : Prop :=
  0 <= inserted l ∧ 0 <= updated l ∧ 0 <= skipped l ∧
  inserted l + updated l + Z.of_nat (length (pending_ops l))
  <= processed l - skipped l.

(** What the absence of a report needs of the state of a run started
    in world [w0]. *)
Definition unreported (w0 : World) (l : Locals) (w : World) : Prop :=
  ∃ new, trace w = trace w0 ++ new ∧ existsb is_done new = false.

(** *** Sample data *)

(** A parser that knows one date. *)
Definition sample_iso (s : string) : option datetime :=
  if String.eqb s "2024-01-01" then Some 1704067200000000 else None.

(** A clock that advances by one second per reading. *)
Definition sample_clock (n : nat) : datetime :=
  1720000000000000 + 1000000 * Z.of_nat n.

Definition sample_row (pid url time verified : string) : RawRow :=
  {[ "phish_id" := PyStr pid; "url" := PyStr url;
     "submission_time" := PyStr time; "verified" := PyStr verified ]}.

(** The row DictReader builds from the line [1,http://a.example] under
    the header [phish_id,url,submission_time,verified]. *)
Definition short_row : RawRow :=
  {[ "phish_id" := PyStr "1"; "url" := PyStr "http://a.example";
     "submission_time" := PyNone; "verified" := PyNone ]}.

(** The row DictReader builds from the line [5] under the same header:
    the columns the line lacks are null. *)
Definition key_only_row : RawRow :=
  {[ "phish_id" := PyStr "5"; "url" := PyNone;
     "submission_time" := PyNone; "verified" := PyNone ]}.

Definition no_write_error (c : gmap string Doc) (op : UpdateOne) : bool :=
  false.

(** A server that executes every bulk in the order of the list. *)
Definition source_order (c : gmap string Doc) (ops : list UpdateOne)
    (i : nat) : nat := 0%nat.


Definition empty_world : World := mkWorld ∅ 0 0 [].

(** Ten rows that all pass the transformer. *)
Definition ten_rows : list RawRow :=
  map (fun n => sample_row (String (ascii_of_nat (48 + n)) "")
                  "http://a.example" "2024-01-01" "yes")
      (seq 0 10).

(** A server that rejects every write to the document "2". *)
Definition reject_two (c : gmap string Doc) (op : UpdateOne) : bool :=
  String.eqb (uo_filter op) "2".

(** Five rows that all pass the transformer. *)
Definition five_rows : list RawRow := take 5 ten_rows.

(** A collection holding document "1" with a field of its own. *)
Definition annotated_world : World :=
  mkWorld {[ "1" := {[ "phish_id" := BStr "1"; "url" := BStr "old";
                       "note" := BStr "kept" ]} ]} 0 0 [].

(** The sample row with two columns the connector does not read. *)
Definition wide_row : RawRow :=
  <["target" := PyStr "Other"]>
    (<["online" := PyStr "yes"]>
       (sample_row " 7 " "http://a.example" "2024-01-01" "yes")).

(** A network whose first two requests fail and whose third succeeds. *)
Definition third_time_lucky (n : nat) : option (list RawRow) :=
  if (n <? 2)%nat then None else Some five_rows.

(** A feed that reports the key "1" twice, with two urls. *)
Definition duplicate_feed : list RawRow :=
  [sample_row "1" "http://old.example" "2024-01-01" "yes";
   sample_row "2" "http://b.example" "2024-01-01" "no";
   sample_row "1" "http://new.example" "" "no"].

(** A feed with a blank key in second place. *)
Definition gappy_feed : list RawRow :=
  [sample_row "1" "http://a.example" "2024-01-01" "yes";
   sample_row "  " "http://b.example" "2024-01-01" "yes";
   sample_row "3" "http://c.example" "2024-01-01" "yes"].

(** A feed whose rows all lack a required field. *)
Definition blank_feed : list RawRow :=
  [sample_row "" "http://a.example" "2024-01-01" "yes";
   sample_row "2" "   " "2024-01-01" "yes"].

(** ** Properties *)

Example strip_ex : PyStr.strip "  a b  " = "a b".
Proof. reflexivity. Qed.
Example lower_ex : PyStr.lower "TRUE" = "true".
Proof. reflexivity. Qed.
Example tok_ex : in_truthy_tokens (PyStr.lower "Yes") = true.
Proof. reflexivity. Qed.
Example tok_ex2 : in_truthy_tokens (PyStr.lower "") = false.
Proof. reflexivity. Qed.

Example verified_tokens :
  map (fun v => in_truthy_tokens (PyStr.lower v))
      ["Yes"; "Y"; "true"; "TRUE"; "no"; ""; "yes "]
  = [true; true; true; true; false; false; false].
Proof. reflexivity. Qed.

Lemma bind_ok {A B : Type} (m : M A) (f : A -> M B) (w w' : World) (a : A) :
  m w = (Ok a, w') -> (m ≫= f) w = f a w'.
Proof. intros H. unfold mbind, M_bind. now rewrite H. Qed.

Lemma bind_raise {A B : Type} (m : M A) (f : A -> M B) (w w' : World) (e : exn) :
  m w = (Raise e, w') -> (m ≫= f) w = (Raise e, w').
Proof. intros H. unfold mbind, M_bind. now rewrite H. Qed.

Lemma truthy_false (s : string) : PyStr.truthy s = false <-> s = "".
Proof. destruct s; simpl; split; congruence. Qed.

Lemma truthy_true (s : string) : PyStr.truthy s = true <-> s ≠ "".
Proof. destruct s; simpl; split; congruence. Qed.


Lemma record_dom (pid link : string) (submitted : option datetime)
    (verified : string) (now : datetime) :
  dom (record pid link submitted verified now) = list_to_set record_fields.
Proof.
  unfold record, record_fields.
  rewrite !dom_insert_L, ?dom_singleton_L. simpl. set_solver.
Qed.

Section TransformerProperties.

Variable fromisoformat : string -> option datetime.
Variable utcnow : nat -> datetime.

(** [_clean_row] is [transform] followed by one reading of the clock,
    taken only when a record is built. *)
Lemma clean_row_transform (row : RawRow) (w : World) :
  _clean_row fromisoformat utcnow row w =
  match transform fromisoformat row with
  | Ok (Some mk) => (Ok (Some (mk (utcnow (ticks w)))), tick w)
  | Ok None => (Ok None, w)
  | Raise e => (Raise e, w)
  end.
Proof.
  unfold _clean_row, transform, mbind, M_bind, lift.
  destruct (py_strip (row_get row "phish_id")) as [pid|e]; [|reflexivity].
  destruct (py_strip (row_get row "url")) as [link|e]; [|reflexivity].
  destruct (negb (PyStr.truthy pid) || negb (PyStr.truthy link));
    [reflexivity|].
  destruct (py_lower (row_get row "verified")) as [v|e]; reflexivity.
Qed.




(** C8, at the row of a line that stops after the [url] column: the
    null [verified] field makes [_clean_row] raise AttributeError
    (while the null [submission_time] of the same row is tolerated). *)
Theorem clean_row_raises_on_null_verified (w : World) :
  _clean_row fromisoformat utcnow short_row w = (Raise AttributeError, w).
Proof. rewrite clean_row_transform. reflexivity. Qed.

(** C2, as the code has it. A required field that is null, as
    DictReader leaves the columns a short line lacks, is missing from
    the row, yet the row is not skipped: [.strip()] on the null raises
    AttributeError out of the transformer, and the loop body raises in
    its turn, so that neither [skipped] nor [processed] is incremented
    for the row. *)
Theorem null_required_field_is_not_skipped (row : RawRow) (w : World) :
  not_null row "phish_id" && not_null row "url" = false ->
  (trimmed row "phish_id" = "" ∨ trimmed row "url" = "") ∧
  _clean_row fromisoformat utcnow row w = (Raise AttributeError, w) ∧
  ∀ write_error write_rank max_rows batch_size l,
    cap_reached max_rows (processed l) = false ->
    loop_body fromisoformat utcnow write_error write_rank max_rows batch_size
      row l w = (Raise AttributeError, w).
Proof.
  intros Hnull.
  assert (Hc : _clean_row fromisoformat utcnow row w
               = (Raise AttributeError, w)).
  { rewrite clean_row_transform. unfold transform, row_get.
    unfold not_null in Hnull.
    destruct (row !! "phish_id") as [[|pid]|]; try reflexivity;
      destruct (row !! "url") as [[|link]|]; try reflexivity;
      discriminate. }
  split; [|split; [exact Hc|]].
  - unfold not_null, trimmed in *.
    destruct (row !! "phish_id") as [[|pid]|]; [now left| |];
      destruct (row !! "url") as [[|link]|];
      try discriminate; now right.
  - intros we wr max_rows batch_size l Hcap. unfold loop_body. rewrite Hcap.
    now rewrite (bind_raise _ _ _ _ _ Hc).
Qed.

(** C7, as the code has it. A row whose trimmed [phish_id] and [url]
    are both non-empty and whose [verified] is null, as DictReader
    leaves it after a line that stops before that column, does not
    become a record with [verified] false: [.lower()] on the null raises
    AttributeError out of the transformer, before the clock is read. *)
Theorem null_verified_row_is_not_a_record (row : RawRow) (w : World) :
  trimmed row "phish_id" ≠ "" -> trimmed row "url" ≠ "" ->
  not_null row "verified" = false ->
  verified_flag row = false ∧
  _clean_row fromisoformat utcnow row w = (Raise AttributeError, w).
Proof.
  intros Hp Hu Hv. rewrite clean_row_transform.
  unfold transform, trimmed, row_get, not_null, verified_flag in *.
  destruct (row !! "phish_id") as [[|pid]|]; try congruence.
  destruct (row !! "url") as [[|link]|]; try congruence. simpl.
  apply truthy_true in Hp, Hu. rewrite Hp, Hu. simpl.
  destruct (row !! "verified") as [[|v]|]; try discriminate.
  split; reflexivity.
Qed.

End TransformerProperties.

Lemma null_required_field_is_not_skipped_witness :
  (trimmed key_only_row "phish_id" = "" ∨ trimmed key_only_row "url" = "") ∧
  _clean_row sample_iso sample_clock key_only_row empty_world
  = (Raise AttributeError, empty_world) ∧
  ∀ write_error write_rank max_rows batch_size l,
    cap_reached max_rows (processed l) = false ->
    loop_body sample_iso sample_clock write_error write_rank max_rows
      batch_size key_only_row l empty_world
    = (Raise AttributeError, empty_world).
Proof.
  apply (null_required_field_is_not_skipped sample_iso sample_clock
           key_only_row empty_world).
  reflexivity.
Defined.

Lemma null_verified_row_is_not_a_record_witness :
  verified_flag short_row = false ∧
  _clean_row sample_iso sample_clock short_row empty_world
  = (Raise AttributeError, empty_world).
Proof.
  apply (null_verified_row_is_not_a_record sample_iso sample_clock
           short_row empty_world).
  - vm_compute. discriminate.
  - vm_compute. discriminate.
  - reflexivity.
Defined.



(** ** Further properties of the transformer *)

Lemma lstrip_starts (s : string) :
  match PyStr.lstrip s with
  | EmptyString => True
  | String c _ => PyStr.isspace c = false
  end.
Proof.
  induction s as [|c s IH]; simpl; [exact I|].
  destruct (PyStr.isspace c) eqn:Hc; [exact IH | exact Hc].
Qed.

Lemma rstrip_starts (s : string) :
  match s with
  | EmptyString => True
  | String c _ => PyStr.isspace c = false
  end ->
  match PyStr.rstrip s with
  | EmptyString => True
  | String c _ => PyStr.isspace c = false
  end.
Proof.
  destruct s as [|c s]; simpl; [trivial|]. intros Hc.
  destruct (PyStr.rstrip s); [rewrite Hc|]; exact Hc.
Qed.

Lemma lstrip_fixed (s : string) :
  match s with
  | EmptyString => True
  | String c _ => PyStr.isspace c = false
  end ->
  PyStr.lstrip s = s.
Proof. destruct s as [|c s]; simpl; [trivial|]. now intros ->. Qed.

Lemma rstrip_rstrip (s : string) :
  PyStr.rstrip (PyStr.rstrip s) = PyStr.rstrip s.
Proof.
  induction s as [|c s IH]; [reflexivity|]. simpl.
  destruct (PyStr.rstrip s) as [|c' r] eqn:Hr.
  - destruct (PyStr.isspace c) eqn:Hc; [reflexivity|]. simpl. now rewrite Hc.
  - change (PyStr.rstrip (String c (String c' r)))
      with (match PyStr.rstrip (String c' r) with
            | EmptyString =>
                if PyStr.isspace c then EmptyString else String c EmptyString
            | String a b => String c (String a b)
            end).
    now rewrite IH.
Qed.

(** Trimming what is trimmed changes nothing. *)
Lemma strip_strip (s : string) :
  PyStr.strip (PyStr.strip s) = PyStr.strip s.
Proof.
  unfold PyStr.strip.
  rewrite (lstrip_fixed (PyStr.rstrip (PyStr.lstrip s)))
    by apply rstrip_starts, lstrip_starts.
  apply rstrip_rstrip.
Qed.

Lemma eqb_empty_false (s : string) : String.eqb s "" = false <-> s ≠ "".
Proof. apply String.eqb_neq. Qed.

Section TransformerEdgeCases.

Variable fromisoformat : string -> option datetime.
Variable utcnow : nat -> datetime.

(** [transform] raises exactly on the rows with a null field in its
    way. *)
Lemma transform_null_read (row : RawRow) :
  if null_read row
  then transform fromisoformat row = Raise AttributeError
  else ∃ o, transform fromisoformat row = Ok o.
Proof.
  unfold null_read, not_null, trimmed, transform, row_get.
  destruct (row !! "phish_id") as [[|pid]|]; simpl; try reflexivity;
    destruct (row !! "url") as [[|link]|]; simpl; try reflexivity.
  - destruct (PyStr.strip pid) as [|c p]; simpl; [eauto|].
    destruct (PyStr.strip link) as [|c' q]; simpl; [eauto|].
    destruct (row !! "verified") as [[|v]|]; simpl; eauto.
  - destruct (PyStr.strip pid) as [|c p]; simpl; eauto.
  - eauto.
  - eauto.
Qed.

(** X1. The transformer raises exactly when it meets a null field on its
    way: a null [phish_id] or [url], or a null [verified] in a row whose
    required fields are both non-blank. The exception is AttributeError
    and the world is left as it was; every other row gives a record or a
    skip. *)
Theorem clean_row_raises_exactly_on_null (row : RawRow) (w : World) :
  if null_read row
  then _clean_row fromisoformat utcnow row w = (Raise AttributeError, w)
  else ∃ o w', _clean_row fromisoformat utcnow row w = (Ok o, w').
Proof.
  rewrite clean_row_transform.
  pose proof (transform_null_read row) as H.
  destruct (null_read row); [now rewrite H|].
  destruct H as [[mk|] ->]; eauto.
Qed.

Lemma transform_columns (row row' : RawRow) :
  (∀ k, k ∈ columns_read -> row !! k = row' !! k) ->
  transform fromisoformat row = transform fromisoformat row'.
Proof.
  intros H. unfold transform, row_get, row_truthy.
  rewrite (H "phish_id"), (H "url"), (H "submission_time"), (H "verified")
    by (unfold columns_read; set_solver).
  reflexivity.
Qed.

(** X2. The transformer reads four columns only: two rows that agree on
    [phish_id], [url], [submission_time] and [verified] are transformed
    alike, whatever other columns they have. *)
Theorem clean_row_ignores_other_columns (row row' : RawRow) (w : World) :
  (∀ k, k ∈ columns_read -> row !! k = row' !! k) ->
  _clean_row fromisoformat utcnow row w
  = _clean_row fromisoformat utcnow row' w.
Proof.
  intros H. rewrite !clean_row_transform.
  now rewrite (transform_columns row row' H).
Qed.

(** X3. Every record the transformer builds has a key and a url that are
    non-empty and trimmed: trimming them again changes nothing. The clock
    is read once for it. *)
Theorem clean_row_record_is_trimmed (row : RawRow) (w w' : World)
    (doc : Doc) :
  _clean_row fromisoformat utcnow row w = (Ok (Some doc), w') ->
  w' = tick w ∧
  ∃ pid link,
    doc !! "phish_id" = Some (BStr pid) ∧ doc !! "url" = Some (BStr link) ∧
    pid ≠ "" ∧ link ≠ "" ∧
    PyStr.strip pid = pid ∧ PyStr.strip link = link.
Proof.
  rewrite clean_row_transform. unfold transform, row_get.
  destruct (default (PyStr "") (row !! "phish_id")) as [|p];
    [discriminate|].
  destruct (default (PyStr "") (row !! "url")) as [|u]; [discriminate|].
  simpl.
  destruct (PyStr.truthy (PyStr.strip p)) eqn:Hp; [|discriminate].
  destruct (PyStr.truthy (PyStr.strip u)) eqn:Hu; [|discriminate].
  simpl.
  destruct (py_lower (default (PyStr "") (row !! "verified"))) as [v|];
    [|discriminate].
  intros [= <- <-]. split; [reflexivity|].
  exists (PyStr.strip p), (PyStr.strip u). unfold record.
  split; [now simplify_map_eq|]. split; [now simplify_map_eq|].
  split; [now apply truthy_true|]. split; [now apply truthy_true|].
  split; apply strip_strip.
Qed.

End TransformerEdgeCases.

Lemma clean_row_ignores_other_columns_witness :
  _clean_row sample_iso sample_clock wide_row empty_world
  = _clean_row sample_iso sample_clock
      (sample_row " 7 " "http://a.example" "2024-01-01" "yes") empty_world.
Proof.
  apply (clean_row_ignores_other_columns sample_iso sample_clock wide_row
           (sample_row " 7 " "http://a.example" "2024-01-01" "yes")
           empty_world).
  intros k Hk. unfold columns_read in Hk.
  repeat (apply elem_of_cons in Hk as [->|Hk]; [reflexivity|]).
  now apply elem_of_nil in Hk.
Defined.

Lemma clean_row_record_is_trimmed_witness :
  ∃ doc,
    _clean_row sample_iso sample_clock wide_row empty_world
    = (Ok (Some doc), tick empty_world) ∧
    doc !! "phish_id" = Some (BStr "7").
Proof.
  destruct (_clean_row sample_iso sample_clock wide_row empty_world)
    as [[[doc|]|e] w'] eqn:Hrun; try (vm_compute in Hrun; discriminate).
  destruct (clean_row_record_is_trimmed sample_iso sample_clock wide_row
              empty_world w' doc Hrun) as (-> & pid & link & Hpid & _).
  exists doc. split; [reflexivity|].
  vm_compute in Hrun. injection Hrun as <-. vm_compute. reflexivity.
Defined.

Section FetcherProperties.

Variable http_get : nat -> option (list RawRow).
Hypothesis source_down : ∀ n, http_get n = None.

Variables retries backoff : Z.
Hypothesis backoff_nonneg : 0 <= backoff.

(** The loop of [_fetch_csv] from attempt [a] on, with [k] attempts
    left. *)
Lemma fetch_attempts_down (k : nat) : ∀ (a : nat) (w : World),
  Z.of_nat a + Z.of_nat k = Z.of_nat (Z.to_nat retries) ->
  ∃ w' new,
    fetch_attempts http_get retries backoff (map Z.of_nat (seq a k)) w
      = (Raise RuntimeError, w') ∧
    collection w' = collection w ∧
    trace w' = trace w ++ new ∧
    net_events new
    = removelast
        (flat_map (fun i => [EvGet; EvSleep (backoff * Z.of_nat i)])
                  (seq (S a) k)) ∧
    attempts new = k ∧
    sleeps new =
      map (fun i => backoff * Z.of_nat i) (seq (S a) (k - 1)).
Proof.
  induction k as [|k IH]; intros a w Hk.
  - exists w, []. simpl. rewrite app_nil_r. repeat split; reflexivity.
  - cbn [seq map fetch_attempts].
    unfold mbind at 1, M_bind at 1, requests_get at 1.
    rewrite source_down.
    unfold mbind at 1, M_bind at 1, print at 1.
    destruct k as [|k].
    + assert (Hlast : (Z.of_nat a <? retries - 1) = false) by lia.
      rewrite Hlast. unfold mbind, M_bind, mret, M_ret. simpl.
      eexists _, [EvGet; EvPrint _].
      split; [reflexivity|]. split; [reflexivity|].
      split; [simpl; rewrite <- app_assoc; reflexivity|].
      repeat split; reflexivity.
    + assert (Hmore : (Z.of_nat a <? retries - 1) = true) by lia.
      rewrite Hmore.
      assert (Hw : (backoff * (Z.of_nat a + 1) <? 0) = false) by nia.
      erewrite (bind_ok (print _ ≫= _));
        [|unfold mbind, M_bind, print, sleep; rewrite Hw; reflexivity].
      match goal with |- context [fetch_attempts _ _ _ _ ?w1] =>
        destruct (IH (S a) w1) as (w' & new & Hrun & Hc & Ht & Hn & Ha & Hs);
          [lia|]
      end.
      exists w',
        ([EvGet; EvPrint (LFetchFailed (Z.of_nat a + 1));
          EvPrint (LRetrying (backoff * (Z.of_nat a + 1)));
          EvSleep (backoff * (Z.of_nat a + 1))] ++ new).
      split; [exact Hrun|]. split; [rewrite Hc; reflexivity|].
      split; [rewrite Ht; simpl; rewrite <- !app_assoc; reflexivity|].
      replace (Z.of_nat a + 1) with (Z.of_nat (S a)) by lia.
      split; [|split].
      * change (net_events (_ ++ new))
          with (EvGet :: EvSleep (backoff * Z.of_nat (S a)) :: net_events new).
        rewrite Hn. reflexivity.
      * unfold attempts in *. simpl. now rewrite Ha.
      * change (sleeps (_ ++ new))
          with (backoff * Z.of_nat (S a) :: sleeps new).
        rewrite Hs. simpl. rewrite Nat.sub_0_r. reflexivity.
Qed.

(** C5. When every connection attempt fails, [_fetch_csv] with retry
    limit [retries] and backoff unit [backoff] makes exactly [retries]
    attempts, sleeps [backoff * i] after the i-th failure for each
    [i < retries] and not after the last one, and then raises the fatal
    error; no reader is returned and the collection is not touched. *)
Theorem fetch_exhaustion (w : World) :
  ∃ w' new,
    _fetch_csv http_get retries backoff w = (Raise RuntimeError, w') ∧
    collection w' = collection w ∧
    trace w' = trace w ++ new ∧
    net_events new = attempts_with_backoff retries backoff ∧
    attempts new = Z.to_nat retries ∧
    sleeps new =
      map (fun i => backoff * Z.of_nat i) (seq 1 (Z.to_nat retries - 1)).
Proof.
  unfold _fetch_csv, range, attempts_with_backoff.
  apply (fetch_attempts_down (Z.to_nat retries) 0%nat w). lia.
Qed.

End FetcherProperties.

Lemma fetch_exhaustion_witness :
  ∃ w' new,
    _fetch_csv (fun _ => None) 3 5 empty_world = (Raise RuntimeError, w') ∧
    collection w' = collection empty_world ∧
    trace w' = trace empty_world ++ new ∧
    net_events new = [EvGet; EvSleep 5; EvGet; EvSleep 10; EvGet] ∧
    attempts new = 3%nat ∧
    sleeps new = [5; 10].
Proof.
  apply (fetch_exhaustion (fun _ => None) (fun _ => eq_refl) 3 5).
  lia.
Defined.

(** *** The order of an unordered bulk *)

Lemma place_snd (r : nat) (op : UpdateOne) (l : list (nat * UpdateOne)) :
  (place r op l).*2 ≡ₚ op :: l.*2.
Proof.
  induction l as [|[r' op'] l IH]; simpl; [reflexivity|].
  destruct (r <=? r')%nat; simpl; [reflexivity|].
  rewrite IH. apply Permutation_swap.
Qed.

Lemma imap_ranked_snd (f : nat -> nat) (ops : list UpdateOne) :
  (imap (fun i op => (f i, op)) ops).*2 = ops.
Proof.
  revert f. induction ops as [|op ops IH]; intros f; [reflexivity|].
  simpl. f_equal. apply (IH (f ∘ S)).
Qed.

(** The server executes exactly the writes of the bulk, in some order. *)
Lemma server_order_perm (rank : nat -> nat) (ops : list UpdateOne) :
  server_order rank ops ≡ₚ ops.
Proof.
  unfold server_order.
  rewrite <- (imap_ranked_snd id ops) at 2.
  change (imap (fun i op => (id i, op)) ops) with (imap pair ops).
  induction (imap pair ops) as [|[i op] l IH]; simpl; [reflexivity|].
  now rewrite place_snd, IH.
Qed.

Lemma server_order_length (rank : nat -> nat) (ops : list UpdateOne) :
  length (server_order rank ops) = length ops.
Proof. apply Permutation_length, server_order_perm. Qed.

Lemma server_order_Forall (P : UpdateOne -> Prop) (rank : nat -> nat)
    (ops : list UpdateOne) :
  Forall P ops -> Forall P (server_order rank ops).
Proof. intros H. now rewrite server_order_perm. Qed.

(** A server that gives every position the same rank executes the bulk
    in the order of the list. *)
Lemma server_order_source (rank : nat -> nat) (ops : list UpdateOne) :
  (∀ i, rank i = 0%nat) -> server_order rank ops = ops.
Proof.
  intros Hrank. unfold server_order.
  rewrite <- (imap_ranked_snd id ops) at 2.
  change (imap (fun i op => (id i, op)) ops) with (imap pair ops).
  induction (imap pair ops) as [|[i op] l IH]; simpl; [reflexivity|].
  rewrite Hrank.
  destruct (foldr _ [] l) as [|[r' op'] l'] eqn:Hl; simpl in *;
    now rewrite IH.
Qed.

Section OrchestratorProperties.

Variable fromisoformat : string -> option datetime.
Variable utcnow : nat -> datetime.
Variable http_get : nat -> option (list RawRow).
Variable write_error : gmap string Doc -> UpdateOne -> bool.
Variable write_rank : gmap string Doc -> list UpdateOne -> nat -> nat.

Abbreviation bulk_write := (bulk_write write_error write_rank).
Abbreviation after_commit := (after_commit write_error write_rank).
Abbreviation _commit_batch := (_commit_batch write_error write_rank).
Abbreviation loop_body :=
  (loop_body fromisoformat utcnow write_error write_rank).
Abbreviation for_rows :=
  (for_rows fromisoformat utcnow write_error write_rank).
Abbreviation flush := (flush write_error write_rank).
Abbreviation ingest := (ingest fromisoformat utcnow write_error write_rank).
Abbreviation run :=
  (run fromisoformat utcnow http_get write_error write_rank).

Lemma commit_batch_unfold (ops : list UpdateOne) (w : World) :
  _commit_batch ops w =
  (Ok (reported_counts (bulk_write (collection w) ops).2),
   after_commit ops w).
Proof.
  unfold PhishTankETL._commit_batch, after_commit, collection_bulk_write,
    mbind, M_bind.
  destruct (bulk_write (collection w) ops) as [coll' [r|details]];
    reflexivity.
Qed.

(** The body of the loop, case by case. *)
Lemma loop_body_unfold (max_rows : option Z) (batch_size : Z)
    (row : RawRow) (l : Locals) (w : World) :
  loop_body max_rows batch_size row l w =
  if cap_reached max_rows (processed l) then (Ok (Break, l), w)
  else match transform fromisoformat row with
       | Raise e => (Raise e, w)
       | Ok None => (Ok (Continue, skip_row l), w)
       | Ok (Some mk) =>
           let pending :=
             pending_ops l ++ [upsert_of (mk (utcnow (ticks w)))] in
           if Z.of_nat (length pending) >=? batch_size
           then (Ok (Continue,
                     commit_row
                       (reported_counts
                          (bulk_write (collection w) pending).2) l),
                 after_commit pending (tick w))
           else (Ok (Continue, keep_row pending l), tick w)
       end.
Proof.
  unfold PhishTankETL.loop_body.
  destruct (cap_reached max_rows (processed l)); [reflexivity|].
  unfold mbind at 1, M_bind at 1. rewrite clean_row_transform.
  destruct (transform fromisoformat row) as [[mk|]|e]; try reflexivity.
  cbv zeta.
  destruct (Z.of_nat _ >=? batch_size); [|reflexivity].
  unfold mbind, M_bind. rewrite commit_batch_unfold.
  change (collection (tick w)) with (collection w).
  destruct (reported_counts _); reflexivity.
Qed.

Lemma transform_string_valued (row : RawRow) :
  string_valued row = true -> ∃ o, transform fromisoformat row = Ok o.
Proof.
  unfold string_valued, not_null, transform, row_get.
  destruct (row !! "phish_id") as [[|pid]|]; try discriminate;
    destruct (row !! "url") as [[|link]|]; try discriminate;
    destruct (row !! "verified") as [[|v]|]; try discriminate; simpl;
    intros _;
    match goal with
    | |- context [if ?b then _ else _] => destruct b
    | _ => idtac
    end; eauto.
Qed.

(** A turn of the loop on a string-valued row below the cap goes on
    with one more row processed. *)
Lemma loop_body_continues (max_rows : option Z) (batch_size : Z)
    (row : RawRow) (l : Locals) (w : World) :
  cap_reached max_rows (processed l) = false ->
  string_valued row = true ->
  ∃ l1 w1,
    loop_body max_rows batch_size row l w = (Ok (Continue, l1), w1) ∧
    processed l1 = processed l + 1.
Proof.
  intros Hcap Hrow. rewrite loop_body_unfold, Hcap.
  destruct (transform_string_valued row Hrow) as [[mk|] ->]; cbv zeta;
    [destruct (Z.of_nat _ >=? batch_size)|]; eauto.
Qed.

Lemma for_rows_cons (max_rows : option Z) (batch_size : Z)
    (row : RawRow) (rest : list RawRow) (l l1 : Locals) (w w1 : World) :
  loop_body max_rows batch_size row l w = (Ok (Continue, l1), w1) ->
  for_rows max_rows batch_size (row :: rest) l w =
  for_rows max_rows batch_size rest l1 w1.
Proof.
  intros H. cbn [PhishTankETL.for_rows]. now rewrite (bind_ok _ _ _ _ _ H).
Qed.

Lemma for_rows_break (max_rows : option Z) (batch_size : Z)
    (row : RawRow) (rest : list RawRow) (l : Locals) (w : World) :
  cap_reached max_rows (processed l) = true ->
  for_rows max_rows batch_size (row :: rest) l w = (Ok (l, rest), w).
Proof.
  intros H. cbn [PhishTankETL.for_rows].
  assert (Hb : loop_body max_rows batch_size row l w = (Ok (Break, l), w))
    by (now rewrite loop_body_unfold, H).
  now rewrite (bind_ok _ _ _ _ _ Hb).
Qed.

Lemma flush_unfold (l : Locals) (w : World) :
  flush l w =
  match pending_ops l with
  | [] => (Ok l, w)
  | _ =>
      let counts :=
        reported_counts (bulk_write (collection w) (pending_ops l)).2 in
      (Ok (mkLocals (pending_ops l) (inserted l + counts.1)
             (updated l + counts.2) (skipped l) (processed l)),
       after_commit (pending_ops l) w)
  end.
Proof.
  unfold PhishTankETL.flush. destruct (pending_ops l) as [|op ops] eqn:E;
    [reflexivity|].
  unfold mbind, M_bind. rewrite commit_batch_unfold. cbv zeta.
  destruct (reported_counts _); reflexivity.
Qed.

Lemma flush_returns (l : Locals) (w : World) :
  ∃ l' w', flush l w = (Ok l', w') ∧
           skipped l' = skipped l ∧ processed l' = processed l.
Proof.
  rewrite flush_unfold. destruct (pending_ops l); cbv zeta; eauto.
Qed.

(** [ingest] once the loop has returned. *)
Lemma ingest_after_loop (max_rows : option Z) (batch_size : Z)
    (reader unread : list RawRow) (l : Locals) (w w1 : World) :
  for_rows max_rows batch_size reader fresh w = (Ok (l, unread), w1) ->
  ∃ l' w2,
    flush l w1 = (Ok l', w2) ∧
    skipped l' = skipped l ∧ processed l' = processed l ∧
    ingest max_rows batch_size reader w =
    (Ok unread,
     emit (EvPrint (LDone (inserted l') (updated l') (skipped l')
                      (processed l'))) w2).
Proof.
  intros Hloop.
  destruct (flush_returns l w1) as (l' & w2 & Hf & Hs & Hp).
  exists l', w2. repeat split; try assumption.
  unfold PhishTankETL.ingest. fold fresh.
  rewrite (bind_ok _ _ _ _ _ Hloop). cbn beta iota.
  now rewrite (bind_ok _ _ _ _ _ Hf).
Qed.

Lemma reported_emit_done (ins upd skip total : Z) (w : World) :
  reported (emit (EvPrint (LDone ins upd skip total)) w)
  = Some (ins, upd, skip, total).
Proof. unfold reported, emit. simpl. now rewrite last_snoc. Qed.

(** The loop under a positive cap [m], started with at most [m] rows
    processed: it processes rows up to the cap, and the turn that finds
    the cap reached has taken one more row off the reader. *)
Lemma for_rows_capped (m batch_size : Z) (reader : list RawRow) :
  0 < m -> forallb string_valued reader = true ->
  ∀ (l : Locals) (w : World),
    processed l <= m ->
    ∃ l' w',
      for_rows (Some m) batch_size reader l w =
      (Ok (l', drop (S (Z.to_nat (m - processed l))) reader), w') ∧
      processed l' = Z.min m (processed l + Z.of_nat (length reader)).
Proof.
  intros Hm. induction reader as [|row rest IH]; intros Hrows l w Hl.
  - exists l, w. split; [reflexivity|]. simpl. lia.
  - simpl in Hrows. apply andb_true_iff in Hrows as [Hrow Hrest].
    destruct (cap_reached (Some m) (processed l)) eqn:Hcap.
    + rewrite for_rows_break by assumption. exists l, w.
      simpl in Hcap. apply andb_true_iff in Hcap as [_ Hcap].
      assert (processed l = m) as -> by lia.
      rewrite Z.sub_diag. split; [reflexivity|]. simpl length. lia.
    + destruct (loop_body_continues (Some m) batch_size row l w Hcap Hrow)
        as (l1 & w1 & Hbody & Hp1).
      rewrite (for_rows_cons _ _ _ _ _ _ _ _ Hbody).
      assert (Hlt : processed l < m).
      { simpl in Hcap. apply andb_false_iff in Hcap as [Hcap|Hcap]; lia. }
      destruct (IH Hrest l1 w1) as (l' & w' & Hrun & Hp'); [lia|].
      exists l', w'. rewrite Hrun, Hp', Hp1. split.
      * replace (Z.to_nat (m - processed l))
          with (S (Z.to_nat (m - (processed l + 1)))) by lia.
        reflexivity.
      * simpl length. lia.
Qed.

(** C3, as the code has it. Under a positive cap [max_rows = m] the
    cap is tested at the top of every turn, before the row is
    processed, and a turn that finds it reached stops the loop without
    touching the world; a run over string-valued rows reports
    [processed = min m (number of rows)], never more than [m]; the rows
    left unread are those after the first [m + 1]: the turn that
    stops the loop has already taken its row off the reader. *)
Theorem row_cap_is_a_ceiling (m batch_size : Z) (reader : list RawRow)
    (w : World) :
  0 < m -> forallb string_valued reader = true ->
  (∀ row l w0, m <= processed l ->
     loop_body (Some m) batch_size row l w0 = (Ok (Break, l), w0)) ∧
  ∃ w' ins upd skip total,
    ingest (Some m) batch_size reader w
      = (Ok (drop (S (Z.to_nat m)) reader), w') ∧
    reported w' = Some (ins, upd, skip, total) ∧
    total = Z.min m (Z.of_nat (length reader)) ∧ total <= m.
Proof.
  intros Hm Hrows. split.
  - intros row l w0 Hl. rewrite loop_body_unfold.
    assert (cap_reached (Some m) (processed l) = true) as ->; [|reflexivity].
    simpl. apply andb_true_iff. split; [apply negb_true_iff|]; lia.
  - destruct (for_rows_capped m batch_size reader Hm Hrows fresh w)
      as (l & w1 & Hloop & Hp); [simpl; lia|].
    simpl in Hloop, Hp. rewrite Z.sub_0_r in Hloop.
    destruct (ingest_after_loop _ _ _ _ _ _ _ Hloop)
      as (l' & w2 & _ & _ & Hp' & Hrun).
    eexists _, _, _, _, _. split; [exact Hrun|].
    split; [apply reported_emit_done|]. rewrite Hp', Hp. lia.
Qed.

Lemma for_rows_zero_cap (batch_size : Z) (reader : list RawRow) :
  ∀ (l : Locals) (w : World),
    for_rows (Some 0) batch_size reader l w =
    for_rows None batch_size reader l w.
Proof.
  induction reader as [|row rest IH]; intros l w; [reflexivity|].
  cbn [PhishTankETL.for_rows]. unfold mbind, M_bind.
  change (loop_body (Some 0) batch_size row l w)
    with (loop_body None batch_size row l w).
  destruct (loop_body None batch_size row l w) as [[[[|] l1]|e] w1];
    try reflexivity.
  apply IH.
Qed.

(** Without a cap every string-valued row is processed and none is
    left on the reader. *)
Lemma for_rows_uncapped (batch_size : Z) (reader : list RawRow) :
  forallb string_valued reader = true ->
  ∀ (l : Locals) (w : World),
    ∃ l' w',
      for_rows None batch_size reader l w = (Ok (l', []), w') ∧
      processed l' = processed l + Z.of_nat (length reader).
Proof.
  induction reader as [|row rest IH]; intros Hrows l w.
  - exists l, w. split; [reflexivity|]. simpl. lia.
  - simpl in Hrows. apply andb_true_iff in Hrows as [Hrow Hrest].
    destruct (loop_body_continues None batch_size row l w eq_refl Hrow)
      as (l1 & w1 & Hbody & Hp1).
    rewrite (for_rows_cons _ _ _ _ _ _ _ _ Hbody).
    destruct (IH Hrest l1 w1) as (l' & w' & Hrun & Hp').
    exists l', w'. split; [exact Hrun|]. rewrite Hp', Hp1. simpl length. lia.
Qed.

(** C10. With [max_rows = 0] the cap test is off: the run is the run
    with [max_rows] unset, and every row of the reader is processed,
    none being left unread. *)
Theorem zero_cap_is_no_cap (batch_size : Z) (reader : list RawRow)
    (w : World) :
  forallb string_valued reader = true ->
  run (Some 0) batch_size w = run None batch_size w ∧
  ingest (Some 0) batch_size reader w = ingest None batch_size reader w ∧
  ∃ w' ins upd skip,
    ingest (Some 0) batch_size reader w = (Ok [], w') ∧
    reported w' = Some (ins, upd, skip, Z.of_nat (length reader)).
Proof.
  intros Hrows.
  assert (Hing : ∀ rd w0, ingest (Some 0) batch_size rd w0
                          = ingest None batch_size rd w0).
  { intros rd w0. unfold PhishTankETL.ingest, mbind, M_bind.
    now rewrite for_rows_zero_cap. }
  split; [|split].
  - unfold PhishTankETL.run, mbind, M_bind.
    destruct (_fetch_csv http_get 3 5 w) as [[rd|e] w1]; [|reflexivity].
    now rewrite Hing.
  - apply Hing.
  - destruct (for_rows_uncapped batch_size reader Hrows fresh w)
      as (l & w1 & Hloop & Hp).
    rewrite <- for_rows_zero_cap in Hloop.
    destruct (ingest_after_loop _ _ _ _ _ _ _ Hloop)
      as (l' & w2 & _ & _ & Hp' & Hrun).
    eexists _, _, _, _. split; [exact Hrun|].
    rewrite reported_emit_done, Hp', Hp. reflexivity.
Qed.

Lemma after_commit_ticks (ops : list UpdateOne) (w : World) :
  ticks (after_commit ops w) = ticks w.
Proof.
  unfold after_commit.
  destruct (bulk_write (collection w) ops).2; reflexivity.
Qed.

Lemma after_commit_collection (ops : list UpdateOne) (w : World) :
  collection (after_commit ops w) = (bulk_write (collection w) ops).1.
Proof.
  unfold after_commit.
  destruct (bulk_write (collection w) ops).2; reflexivity.
Qed.

(** A commit puts exactly one bulk on the trace. *)
Lemma after_commit_trace (ops : list UpdateOne) (w : World) :
  ∃ tail, trace (after_commit ops w) = trace w ++ EvBulkWrite ops :: tail ∧
          commits tail = [].
Proof.
  unfold after_commit.
  destruct (bulk_write (collection w) ops).2 as [r|details].
  - exists []. simpl. split; reflexivity.
  - exists [EvPrint (LBulkWriteError details)]. simpl.
    rewrite <- app_assoc. split; reflexivity.
Qed.

Lemma commits_app (tr1 tr2 : list Event) :
  commits (tr1 ++ tr2) = commits tr1 ++ commits tr2.
Proof. apply flat_map_app. Qed.

(** The loop over string-valued rows returns, whatever the cap, the
    batch size and the writes the server rejects. *)
Lemma for_rows_returns (max_rows : option Z) (batch_size : Z)
    (reader : list RawRow) :
  forallb string_valued reader = true ->
  ∀ (l : Locals) (w : World),
    ∃ l' unread w',
      for_rows max_rows batch_size reader l w = (Ok (l', unread), w').
Proof.
  induction reader as [|row rest IH]; intros Hrows l w.
  - exists l, [], w. reflexivity.
  - simpl in Hrows. apply andb_true_iff in Hrows as [Hrow Hrest].
    destruct (cap_reached max_rows (processed l)) eqn:Hcap.
    + rewrite for_rows_break by assumption. eauto.
    + destruct (loop_body_continues max_rows batch_size row l w Hcap Hrow)
        as (l1 & w1 & Hbody & _).
      rewrite (for_rows_cons _ _ _ _ _ _ _ _ Hbody). apply IH, Hrest.
Qed.

Lemma ingest_returns (max_rows : option Z) (batch_size : Z)
    (reader : list RawRow) (w : World) :
  forallb string_valued reader = true ->
  ∃ unread w', ingest max_rows batch_size reader w = (Ok unread, w').
Proof.
  intros Hrows.
  destruct (for_rows_returns max_rows batch_size reader Hrows fresh w)
    as (l & unread & w1 & Hloop).
  destruct (ingest_after_loop _ _ _ _ _ _ _ Hloop)
    as (l' & w2 & _ & _ & _ & Hrun).
  eauto.
Qed.

(** C6. When one or more writes of a committed batch fail,
    [_commit_batch] does not raise: it returns (0, 0) and prints the
    warning after the bulk, the writes that succeeded staying in the
    collection. In the loop the batch is cleared, the totals stay as
    they were and the loop goes on with the rows that follow; in the
    final flush the run goes on to its report. Whatever writes the
    server rejects, a run over string-valued rows completes. *)
Theorem failed_bulk_is_absorbed (ops : list UpdateOne) (w : World)
    (details : list string) :
  (bulk_write (collection w) ops).2 = BulkWriteError details ->
  let w' := emit (EvPrint (LBulkWriteError details))
              (set_collection (bulk_write (collection w) ops).1
                 (emit (EvBulkWrite ops) w)) in
  _commit_batch ops w = (Ok (0, 0), w') ∧
  (∀ max_rows batch_size row rest l mk w0,
     tick w0 = w ->
     cap_reached max_rows (processed l) = false ->
     transform fromisoformat row = Ok (Some mk) ->
     pending_ops l ++ [upsert_of (mk (utcnow (ticks w0)))] = ops ->
     batch_size <= Z.of_nat (length ops) ->
     for_rows max_rows batch_size (row :: rest) l w0 =
     for_rows max_rows batch_size rest
       (mkLocals [] (inserted l) (updated l) (skipped l) (processed l + 1))
       w') ∧
  (∀ l, pending_ops l = ops -> ops ≠ [] -> flush l w = (Ok l, w')) ∧
  (∀ max_rows batch_size reader w0,
     forallb string_valued reader = true ->
     ∃ unread w1, ingest max_rows batch_size reader w0 = (Ok unread, w1)).
Proof.
  intros Hfail w'.
  assert (Hafter : after_commit ops w = w').
  { unfold after_commit. now rewrite Hfail. }
  split; [|split; [|split]].
  - rewrite commit_batch_unfold, Hfail, Hafter. reflexivity.
  - intros max_rows batch_size row rest l mk w0 Hw0 Hcap Hrow Hops Hfull.
    apply for_rows_cons. rewrite loop_body_unfold, Hcap, Hrow. cbv zeta.
    rewrite Hops.
    assert ((Z.of_nat (length ops) >=? batch_size) = true) as ->
      by now apply Z.geb_le.
    rewrite Hw0. change (collection w0) with (collection (tick w0)).
    rewrite Hw0, Hfail, Hafter. unfold commit_row. simpl.
    now rewrite !Z.add_0_r.
  - intros l Hl Hne. rewrite flush_unfold, Hl.
    destruct ops as [|op ops']; [congruence|]. cbv zeta.
    rewrite Hfail, Hafter. simpl. rewrite !Z.add_0_r, <- Hl.
    destruct l; reflexivity.
  - intros. now apply ingest_returns.
Qed.

Lemma rows_within_cons (max_rows : option Z) (done : Z) (row : RawRow)
    (rest : list RawRow) :
  cap_reached max_rows done = false ->
  rows_within max_rows done (row :: rest)
  = row :: rows_within max_rows (done + 1) rest.
Proof.
  unfold rows_within, cap_reached. destruct max_rows as [m|]; [|reflexivity].
  destruct (m =? 0) eqn:Hm; [reflexivity|]. simpl. intros Hcap.
  replace (Z.to_nat (m - done)) with (S (Z.to_nat (m - (done + 1)))) by lia.
  reflexivity.
Qed.

Lemma rows_within_break (max_rows : option Z) (done : Z)
    (reader : list RawRow) :
  cap_reached max_rows done = true -> rows_within max_rows done reader = [].
Proof.
  unfold rows_within, cap_reached. destruct max_rows as [m|]; [|discriminate].
  destruct (m =? 0); [discriminate|]. simpl. intros Hcap.
  replace (Z.to_nat (m - done)) with 0%nat by lia. reflexivity.
Qed.

(** The loop and its batches: every bulk of the loop has exactly the
    effective batch size, the batch left pending is shorter, and the
    bulks followed by the pending batch are the pending batch at the
    start followed by the intents of the rows processed. *)
Lemma for_rows_batches (max_rows : option Z) (batch_size : Z)
    (reader : list RawRow) :
  forallb string_valued reader = true ->
  ∀ (l : Locals) (w : World),
    (length (pending_ops l) < effective_batch batch_size)%nat ->
    ∃ l' unread w' new,
      for_rows max_rows batch_size reader l w = (Ok (l', unread), w') ∧
      trace w' = trace w ++ new ∧
      Forall (fun b => length b = effective_batch batch_size) (commits new) ∧
      (length (pending_ops l') < effective_batch batch_size)%nat ∧
      concat (commits new) ++ pending_ops l' =
      pending_ops l
        ++ intents fromisoformat utcnow (rows_within max_rows (processed l) reader) (ticks w).
Proof.
  induction reader as [|row rest IH]; intros Hrows l w Hpend.
  - exists l, [], w, []. simpl.
    assert (rows_within max_rows (processed l) [] = []) as ->.
    { unfold rows_within. destruct max_rows as [m|]; [|reflexivity].
      destruct (m =? 0); [reflexivity|]. now rewrite take_nil. }
    rewrite !app_nil_r. repeat split; auto.
  - simpl in Hrows. apply andb_true_iff in Hrows as [Hrow Hrest].
    destruct (cap_reached max_rows (processed l)) eqn:Hcap.
    { rewrite for_rows_break, rows_within_break by assumption.
      exists l, rest, w, []. simpl. rewrite !app_nil_r.
      repeat split; auto. }
    rewrite rows_within_cons by assumption. cbn [intents].
    pose proof (loop_body_unfold max_rows batch_size row l w) as Hbody.
    rewrite Hcap in Hbody.
    destruct (transform_string_valued row Hrow) as [[mk|] Htr];
      rewrite Htr in Hbody |- *; cbv zeta in Hbody.
    + set (op := upsert_of (mk (utcnow (ticks w)))) in *.
      destruct (Z.of_nat (length (pending_ops l ++ [op])) >=? batch_size)
        eqn:Hfull.
      * rewrite (for_rows_cons _ _ _ _ _ _ _ _ Hbody).
        destruct (IH Hrest
                    (commit_row
                       (reported_counts
                          (bulk_write (collection w)
                             (pending_ops l ++ [op])).2) l)
                    (after_commit (pending_ops l ++ [op]) (tick w)))
          as (l' & unread & w' & new & Hrun & Htr' & Hall & Hp' & Hcat).
        { simpl. unfold effective_batch. lia. }
        destruct (after_commit_trace (pending_ops l ++ [op]) (tick w))
          as (tail & Htail & Hnone).
        exists l', unread, w',
          (EvBulkWrite (pending_ops l ++ [op]) :: tail ++ new).
        split; [exact Hrun|].
        split; [rewrite Htr', Htail; simpl; now rewrite <- app_assoc|].
        change (commits (EvBulkWrite ?b :: ?t))
          with (b :: commits t).
        rewrite commits_app, Hnone. simpl app.
        split; [|split; [exact Hp'|]].
        -- constructor; [|exact Hall].
           apply Z.geb_le in Hfull.
           rewrite length_app in *. simpl length in *.
           unfold effective_batch in *. lia.
        -- simpl concat. rewrite <- app_assoc, Hcat.
           rewrite after_commit_ticks. simpl. now rewrite <- app_assoc.
      * rewrite (for_rows_cons _ _ _ _ _ _ _ _ Hbody).
        destruct (IH Hrest (keep_row (pending_ops l ++ [op]) l) (tick w))
          as (l' & unread & w' & new & Hrun & Htr' & Hall & Hp' & Hcat).
        { rewrite Z.geb_leb in Hfull. apply Z.leb_gt in Hfull.
          simpl. rewrite length_app in *. simpl length in *.
          unfold effective_batch. lia. }
        exists l', unread, w', new.
        split; [exact Hrun|]. split; [exact Htr'|].
        split; [exact Hall|]. split; [exact Hp'|].
        rewrite Hcat. simpl. now rewrite <- app_assoc.
    + rewrite (for_rows_cons _ _ _ _ _ _ _ _ Hbody).
      destruct (IH Hrest (skip_row l) w Hpend)
        as (l' & unread & w' & new & Hrun & Htr' & Hall & Hp' & Hcat).
      exists l', unread, w', new. auto.
Qed.

(** C4. In a run over string-valued rows the batches handed to the
    store are: batches of exactly the batch size, each committed by the
    loop when the pending batch reaches that size and cleared there,
    followed, when records are left pending once the reader is
    exhausted or the cap reached, by one shorter final flush; taken
    together they are the upsert intents of the rows processed, in
    order. (A batch size below 1 works as 1.) *)
Theorem batches_committed (max_rows : option Z) (batch_size : Z)
    (reader : list RawRow) (w : World) :
  forallb string_valued reader = true ->
  ∃ unread w' new full final,
    ingest max_rows batch_size reader w = (Ok unread, w') ∧
    trace w' = trace w ++ new ∧
    commits new = full ++ final ∧
    Forall (fun b => length b = effective_batch batch_size) full ∧
    (final = [] ∨
     ∃ b, final = [b] ∧
          (0 < length b < effective_batch batch_size)%nat) ∧
    concat (commits new)
    = intents fromisoformat utcnow (rows_within max_rows 0 reader) (ticks w).
Proof.
  intros Hrows.
  destruct (for_rows_batches max_rows batch_size reader Hrows fresh w)
    as (l & unread & w1 & new & Hloop & Htr & Hall & Hp & Hcat).
  { simpl. unfold effective_batch. lia. }
  destruct (ingest_after_loop _ _ _ _ _ _ _ Hloop)
    as (l' & w2 & Hf & _ & _ & Hrun).
  simpl in Hcat. rewrite flush_unfold in Hf.
  destruct (pending_ops l) as [|op ops] eqn:Hpend.
  - injection Hf as Hl' Hw2. subst w2.
    exists unread, (emit (EvPrint (LDone (inserted l') (updated l')
                               (skipped l') (processed l'))) w1),
      (new ++ [EvPrint (LDone (inserted l') (updated l')
                          (skipped l') (processed l'))]),
      (commits new), [].
    split; [exact Hrun|].
    split; [simpl; rewrite Htr; now rewrite <- app_assoc|].
    rewrite commits_app. simpl. rewrite !app_nil_r in *.
    repeat split; auto.
  - cbv zeta in Hf. injection Hf as Hl' Hw2.
    destruct (after_commit_trace (op :: ops) w1) as (tail & Htail & Hnone).
    exists unread, (emit (EvPrint (LDone (inserted l') (updated l')
                               (skipped l') (processed l'))) w2),
      (new ++ EvBulkWrite (op :: ops) :: tail
         ++ [EvPrint (LDone (inserted l') (updated l')
                        (skipped l') (processed l'))]),
      (commits new), [op :: ops].
    split; [exact Hrun|].
    split.
    { simpl. rewrite <- Hw2, Htail, Htr. rewrite <- !app_assoc.
      reflexivity. }
    rewrite commits_app.
    change (commits (EvBulkWrite ?b :: ?t)) with (b :: commits t).
    rewrite commits_app, Hnone. simpl app.
    split; [reflexivity|]. split; [exact Hall|].
    split.
    { right. exists (op :: ops). split; [reflexivity|].
      simpl length in *. lia. }
    rewrite concat_app. simpl concat. rewrite app_nil_r. exact Hcat.
Qed.

(** A turn that stops the loop or raises leaves locals and world as
    they were. *)
Lemma loop_body_stops (max_rows : option Z) (batch_size : Z)
    (row : RawRow) (l : Locals) (w : World) :
  (∀ l1 w1, loop_body max_rows batch_size row l w = (Ok (Break, l1), w1) ->
            l1 = l ∧ w1 = w) ∧
  (∀ e w1, loop_body max_rows batch_size row l w = (Raise e, w1) -> w1 = w).
Proof.
  rewrite loop_body_unfold.
  destruct (cap_reached max_rows (processed l)).
  { split; intros; [|discriminate]. split; congruence. }
  destruct (transform fromisoformat row) as [[mk|]|e]; cbv zeta;
    [destruct (Z.of_nat _ >=? batch_size)| |];
    split; intros; try discriminate; congruence.
Qed.

(** A loop invariant carries over to the end of the loop, also when a
    row makes it raise. *)
Lemma for_rows_invariant (Inv : Locals -> World -> Prop)
    (max_rows : option Z) (batch_size : Z) :
  (∀ row l w l1 w1,
     Inv l w ->
     loop_body max_rows batch_size row l w = (Ok (Continue, l1), w1) ->
     Inv l1 w1) ->
  ∀ reader l w r w',
    Inv l w ->
    for_rows max_rows batch_size reader l w = (r, w') ->
    ∃ l', Inv l' w' ∧ ∀ x, r = Ok x -> x.1 = l'.
Proof.
  intros Hstep. induction reader as [|row rest IH]; intros l w r w' Hinv Hrun.
  - injection Hrun as <- <-. exists l. split; [assumption|].
    intros x [= <-]. reflexivity.
  - cbn [PhishTankETL.for_rows] in Hrun. unfold mbind, M_bind in Hrun.
    destruct (loop_body_stops max_rows batch_size row l w) as [Hbrk Hexn].
    destruct (loop_body max_rows batch_size row l w)
      as [[[[|] l1]|e] w1] eqn:Hbody.
    + eapply IH; [|exact Hrun]. eapply Hstep; eassumption.
    + destruct (Hbrk l1 w1 eq_refl) as [-> ->].
      injection Hrun as <- <-. exists l. split; [assumption|].
      intros x [= <-]. reflexivity.
    + rewrite (Hexn e w1 eq_refl) in Hrun. injection Hrun as <- <-.
      exists l. split; [assumption|]. intros x [=].
Qed.

(** What [transform] accepts is a record of non-empty key and url. *)
Lemma transform_record (row : RawRow) (mk : datetime -> Doc) :
  transform fromisoformat row = Ok (Some mk) ->
  ∃ pid link submitted verified,
    mk = record pid link submitted verified ∧ pid ≠ "" ∧ link ≠ "".
Proof.
  unfold transform.
  destruct (py_strip (row_get row "phish_id")) as [pid|]; [|discriminate].
  destruct (py_strip (row_get row "url")) as [link|]; [|discriminate].
  destruct (PyStr.truthy pid) eqn:Hp; [|discriminate].
  destruct (PyStr.truthy link) eqn:Hl; [|discriminate]. simpl.
  destruct (py_lower (row_get row "verified")) as [v|]; [|discriminate].
  intros [= <-]. eexists _, _, _, _. split; [reflexivity|].
  split; apply truthy_true; assumption.
Qed.

Lemma upsert_of_record (pid link : string) (submitted : option datetime)
    (verified : string) (now : datetime) :
  upsert_of (record pid link submitted verified now)
  = mkUpdateOne pid (record pid link submitted verified now) true.
Proof. reflexivity. Qed.

Lemma record_intent_upsert_of (row : RawRow) (mk : datetime -> Doc)
    (now : datetime) :
  transform fromisoformat row = Ok (Some mk) ->
  record_intent (upsert_of (mk now)).
Proof.
  intros H. destruct (transform_record row mk H)
    as (pid & link & sub & v & -> & _ & _).
  rewrite upsert_of_record. split; [reflexivity|].
  split; [apply record_dom | reflexivity].
Qed.

Lemma framed_refl (c : gmap string Doc) : framed c c.
Proof. intros k doc H. eauto. Qed.

Lemma framed_trans (c1 c2 c3 : gmap string Doc) :
  framed c1 c2 -> framed c2 c3 -> framed c1 c3.
Proof.
  intros H12 H23 k doc H1.
  destruct (H12 k doc H1) as (doc2 & H2 & Hf2).
  destruct (H23 k doc2 H2) as (doc3 & H3 & Hf3).
  exists doc3. split; [assumption|]. intros f Hf.
  now rewrite Hf3, Hf2.
Qed.

(** One write of a record intent keeps every document and its other
    fields, whether the write matches, creates or is rejected. *)
Lemma update_one_framed (c : gmap string Doc) (op : UpdateOne) :
  record_intent op -> framed c (update_one write_error c op).1.
Proof.
  intros (_ & Hdom & _). unfold update_one.
  destruct (write_error c op); [apply framed_refl|].
  destruct (c !! uo_filter op) as [d|] eqn:Hk.
  - intros k doc Hdoc. simpl.
    destruct (decide (uo_filter op = k)) as [<-|Hne].
    + rewrite lookup_insert_eq. eexists. split; [reflexivity|].
      intros f Hf. rewrite Hk in Hdoc. injection Hdoc as <-.
      apply lookup_union_r. apply not_elem_of_dom. rewrite Hdom.
      now rewrite elem_of_list_to_set.
    + rewrite lookup_insert_ne by assumption. eauto.
  - destruct (uo_upsert op); [|apply framed_refl].
    intros k doc Hdoc. simpl.
    rewrite lookup_insert_ne by congruence. eauto.
Qed.

Lemma bulk_exec_framed (ops : list UpdateOne) :
  Forall record_intent ops ->
  ∀ c r failed, framed c (bulk_exec write_error c ops r failed).1.1.
Proof.
  induction 1 as [|op ops Hop Hops IH]; intros c r failed;
    [apply framed_refl|].
  cbn [bulk_exec]. pose proof (update_one_framed c op Hop) as Hone.
  destruct (update_one write_error c op) as [c1 [| | |]];
    (eapply framed_trans; [exact Hone | apply IH]).
Qed.

Lemma bulk_write_framed (c : gmap string Doc) (ops : list UpdateOne) :
  Forall record_intent ops -> framed c (bulk_write c ops).1.
Proof.
  intros Hops. unfold PhishTankETL.bulk_write.
  pose proof (bulk_exec_framed _
                (server_order_Forall _ (write_rank c ops) ops Hops)
                c (mkBulkWriteResult 0 0) []) as H.
  destruct (bulk_exec write_error c _ _ _) as [[c1 r1] failed1]. exact H.
Qed.

(** [_fetch_csv] leaves the collection and the clock alone and commits
    nothing, however the requests go. *)
Lemma fetch_attempts_store (retries backoff : Z) (todo : list Z) :
  ∀ w r w',
    fetch_attempts http_get retries backoff todo w = (r, w') ->
    collection w' = collection w ∧ ticks w' = ticks w ∧
    ∃ new, trace w' = trace w ++ new ∧ commits new = [].
Proof.
  induction todo as [|attempt later IH]; intros w r w' Hrun.
  - injection Hrun as <- <-. repeat split. exists []. now rewrite app_nil_r.
  - cbn [fetch_attempts] in Hrun.
    unfold mbind at 1, M_bind at 1, requests_get at 1 in Hrun.
    destruct (http_get (requests w)) as [reader|].
    + injection Hrun as <- <-. repeat split. exists [EvGet]. split; reflexivity.
    + unfold mbind at 1, M_bind at 1, print at 1 in Hrun.
      unfold mbind at 1, M_bind at 1 in Hrun.
      destruct (attempt <? retries - 1).
      * unfold mbind at 1, M_bind at 1, print at 1, sleep in Hrun.
        destruct (backoff * (attempt + 1) <? 0).
        -- injection Hrun as <- <-. repeat split. eexists [_; _; _].
           split; [simpl; now rewrite <- !app_assoc | reflexivity].
        -- apply IH in Hrun as (Hc & Ht & new & Htr & Hnone).
           split; [exact Hc|]. split; [exact Ht|].
           eexists (_ :: _ :: _ :: _ :: new).
           split; [rewrite Htr; simpl; now rewrite <- !app_assoc|].
           exact Hnone.
      * apply IH in Hrun as (Hc & Ht & new & Htr & Hnone).
        split; [exact Hc|]. split; [exact Ht|].
        eexists (_ :: _ :: new).
        split; [rewrite Htr; simpl; now rewrite <- !app_assoc|].
        exact Hnone.
Qed.

Lemma frame_invariant_commit (w0 : World) (l l1 : Locals) (w : World)
    (ops : list UpdateOne) :
  frame_invariant w0 l w -> Forall record_intent ops ->
  pending_ops l1 = [] ∨ pending_ops l1 = ops ->
  frame_invariant w0 l1 (after_commit ops w).
Proof.
  intros (_ & Hfr & new & Htr & Hnew) Hops Hl1. split; [|split].
  - destruct Hl1 as [-> | ->]; [constructor | assumption].
  - eapply framed_trans; [exact Hfr|]. rewrite after_commit_collection.
    now apply bulk_write_framed.
  - destruct (after_commit_trace ops w) as (tail & Htail & Hnone).
    exists (new ++ EvBulkWrite ops :: tail).
    split; [rewrite Htail, Htr; now rewrite <- app_assoc|].
    rewrite commits_app.
    change (commits (EvBulkWrite ops :: tail)) with (ops :: commits tail).
    rewrite Hnone, concat_app. simpl. rewrite app_nil_r.
    apply Forall_app. split; assumption.
Qed.

Lemma frame_invariant_step (w0 : World) (max_rows : option Z)
    (batch_size : Z) (row : RawRow) (l l1 : Locals) (w w1 : World) :
  frame_invariant w0 l w ->
  loop_body max_rows batch_size row l w = (Ok (Continue, l1), w1) ->
  frame_invariant w0 l1 w1.
Proof.
  intros Hinv. rewrite loop_body_unfold.
  destruct (cap_reached max_rows (processed l)); [discriminate|].
  destruct (transform fromisoformat row) as [[mk|]|e] eqn:Htr;
    [|intros [= <- <-]; exact Hinv|discriminate].
  cbv zeta.
  assert (Hops : Forall record_intent
                   (pending_ops l ++ [upsert_of (mk (utcnow (ticks w)))])).
  { apply Forall_app. split; [apply Hinv|]. constructor; [|constructor].
    eapply record_intent_upsert_of, Htr. }
  destruct (Z.of_nat _ >=? batch_size); intros [= <- <-].
  - eapply frame_invariant_commit; [exact Hinv | exact Hops | now left].
  - destruct Hinv as (_ & Hfr & Hnew). split; [exact Hops|]. split; assumption.
Qed.

Lemma ingest_framed (max_rows : option Z) (batch_size : Z)
    (reader : list RawRow) (w0 : World) (r : Result (list RawRow))
    (w' : World) :
  ingest max_rows batch_size reader w0 = (r, w') ->
  framed (collection w0) (collection w') ∧
  ∃ new, trace w' = trace w0 ++ new ∧
         Forall record_intent (concat (commits new)).
Proof.
  unfold PhishTankETL.ingest. fold fresh. unfold mbind at 1, M_bind at 1.
  destruct (for_rows max_rows batch_size reader fresh w0)
    as [lu w1] eqn:Hloop.
  destruct (for_rows_invariant (frame_invariant w0) max_rows batch_size
              (fun row l w l1 w1 =>
                 frame_invariant_step w0 max_rows batch_size row l l1 w w1)
              reader fresh w0 lu w1) as (l & Hinv & Hl); [|exact Hloop|].
  { split; [constructor|]. split; [apply framed_refl|].
    exists []. rewrite app_nil_r. split; [reflexivity | constructor]. }
  destruct lu as [[l0 unread]|e];
    [|intros [= <- <-]; destruct Hinv as (_ & Hfr & Hnew); now split].
  rewrite <- (Hl _ eq_refl) in Hinv. simpl in Hinv. clear Hl.
  unfold mbind at 1, M_bind at 1. rewrite flush_unfold.
  assert (Hflushed : ∃ l' w2,
            frame_invariant w0 l' w2 ∧
            match pending_ops l0 with
            | [] => (Ok l0, w1)
            | _ :: _ =>
                let counts :=
                  reported_counts
                    (bulk_write (collection w1) (pending_ops l0)).2 in
                (Ok (mkLocals (pending_ops l0) (inserted l0 + counts.1)
                       (updated l0 + counts.2) (skipped l0) (processed l0)),
                 after_commit (pending_ops l0) w1)
            end = (Ok l', w2)).
  { destruct (pending_ops l0) as [|op ops] eqn:Hpend.
    - exists l0, w1. split; [exact Hinv | reflexivity].
    - eexists _, _. split; [|reflexivity].
      eapply frame_invariant_commit; [exact Hinv| |now right].
      rewrite <- Hpend. apply Hinv. }
  destruct Hflushed as (l' & w2 & (_ & Hfr & new & Htr & Hnew) & ->).
  unfold mbind, M_bind, print. intros [= <- <-].
  split; [exact Hfr|].
  exists (new ++ [EvPrint (LDone (inserted l') (updated l') (skipped l')
                            (processed l'))]).
  split; [simpl; rewrite Htr; now rewrite <- app_assoc|].
  rewrite commits_app. simpl. now rewrite app_nil_r.
Qed.

(** C9. Every operation a run issues against the store is an upsert
    that sets exactly the five record fields of the document keyed by the
    record's [phish_id]; after the run, however it ends, every document
    that was in the collection is still there and its fields other than
    those five are as before. *)
Theorem run_writes_record_fields_only (max_rows : option Z)
    (batch_size : Z) (w : World) (r : Result unit) (w' : World) :
  run max_rows batch_size w = (r, w') ->
  framed (collection w) (collection w') ∧
  ∃ new, trace w' = trace w ++ new ∧
         Forall record_intent (concat (commits new)).
Proof.
  unfold PhishTankETL.run, _fetch_csv. unfold mbind at 1, M_bind at 1.
  destruct (fetch_attempts http_get 3 5 (range 3) w)
    as [[reader|e] w0] eqn:Hfetch;
    apply fetch_attempts_store in Hfetch as (Hc & _ & new0 & Htr0 & Hnone).
  - unfold mbind, M_bind.
    destruct (ingest max_rows batch_size reader w0) as [r1 w1] eqn:Hing.
    apply ingest_framed in Hing as (Hfr & new & Htr & Hnew).
    intros Hend. assert (w' = w1) as ->
      by (destruct r1; injection Hend as _ <-; reflexivity).
    rewrite <- Hc. split; [exact Hfr|].
    exists (new0 ++ new). split; [rewrite Htr, Htr0; now rewrite <- app_assoc|].
    rewrite commits_app, Hnone. exact Hnew.
  - intros [= <- <-]. rewrite Hc. split; [apply framed_refl|].
    exists new0. split; [exact Htr0|]. rewrite Hnone. constructor.
Qed.

Section NoWriteErrors.

Hypothesis no_write_errors : ∀ c op, write_error c op = false.

Lemma record_intent_absorbs (op : UpdateOne) (o : option Doc) :
  record_intent op ->
  uo_set op ∪ default {[ "phish_id" := BStr (uo_filter op) ]} o
  = uo_set op ∪ default ∅ o.
Proof.
  intros (_ & _ & Hpid). destruct o as [d|]; [reflexivity|]. simpl.
  apply map_eq. intros f. rewrite !lookup_union, lookup_empty.
  destruct (decide (f = "phish_id")) as [->|Hne].
  - rewrite Hpid, lookup_singleton_eq. reflexivity.
  - rewrite lookup_singleton_ne by congruence. reflexivity.
Qed.

(** Without rejected writes, one write of a record intent is the upsert
    of the store interface; it creates a document exactly when the key
    is new. *)
Lemma update_one_upsert (c : gmap string Doc) (op : UpdateOne) :
  record_intent op ->
  update_one write_error c op
  = (upsert c op,
     match c !! uo_filter op with Some _ => Matched | None => Upserted end).
Proof.
  intros Hop. unfold update_one, upsert. rewrite no_write_errors.
  pose proof (record_intent_absorbs op (c !! uo_filter op) Hop) as Habs.
  destruct (c !! uo_filter op) as [d|]; [reflexivity|].
  destruct Hop as (-> & _). simpl in Habs. now rewrite Habs.
Qed.

Lemma upsert_size (c : gmap string Doc) (op : UpdateOne) :
  size (upsert c op)
  = match c !! uo_filter op with
    | Some _ => size c
    | None => S (size c)
    end.
Proof.
  unfold upsert. destruct (c !! uo_filter op) as [d|] eqn:Hk.
  - apply map_size_insert_Some. rewrite Hk. eauto.
  - now apply map_size_insert_None.
Qed.

Lemma bulk_exec_upserts (ops : list UpdateOne) :
  Forall record_intent ops ->
  ∀ c r, ∃ r',
    bulk_exec write_error c ops r [] = (fold_left upsert ops c, r', []) ∧
    upserted_count r'
    = upserted_count r
      + (Z.of_nat (size (fold_left upsert ops c)) - Z.of_nat (size c)) ∧
    upserted_count r' + matched_count r'
    = upserted_count r + matched_count r + Z.of_nat (length ops).
Proof.
  induction 1 as [|op ops Hop Hops IH]; intros c r.
  - exists r. simpl. split; [reflexivity|]. lia.
  - cbn [bulk_exec fold_left]. rewrite (update_one_upsert c op Hop).
    pose proof (upsert_size c op) as Hsize.
    destruct (c !! uo_filter op);
      match goal with
      | |- context [bulk_exec _ _ _ ?r1 _] =>
          destruct (IH (upsert c op) r1) as (r' & Hrun & Hups & Hall)
      end;
      exists r'; (split; [exact Hrun|]); simpl in Hups, Hall;
      simpl length; lia.
Qed.

Lemma upsert_commute (c : gmap string Doc) (x y : UpdateOne) :
  uo_filter x ≠ uo_filter y ->
  upsert (upsert c x) y = upsert (upsert c y) x.
Proof.
  intros Hne. unfold upsert.
  rewrite !lookup_insert_ne by congruence. now apply insert_insert_ne.
Qed.

(** Upserts for distinct keys give the same collection in any order. *)
Lemma fold_upsert_perm (l1 l2 : list UpdateOne) :
  l1 ≡ₚ l2 -> NoDup (map uo_filter l1) ->
  ∀ c, fold_left upsert l1 c = fold_left upsert l2 c.
Proof.
  induction 1 as [|x l1 l2 Hperm IH|x y l|l1 l2 l3 H12 IH12 H23 IH23];
    intros Hnd c; simpl in *.
  - reflexivity.
  - apply NoDup_cons in Hnd as [_ Hnd]. now apply IH.
  - apply NoDup_cons in Hnd as [Hy _]. rewrite upsert_commute; [reflexivity|].
    intros Heq. apply Hy. rewrite Heq. apply elem_of_cons. now left.
  - rewrite IH12 by assumption. apply IH23. now rewrite <- H12.
Qed.

(** Without rejected writes a bulk of record intents succeeds: it
    creates as many documents as the collection gains and matches the
    others; on a safe batch the collection is the one before with the
    intents upserted in the order of the list. *)
Lemma bulk_write_upserts (c : gmap string Doc) (ops : list UpdateOne) :
  Forall record_intent ops ->
  ∃ r c',
    bulk_write c ops = (c', BulkOk r) ∧
    upserted_count r = Z.of_nat (size c') - Z.of_nat (size c) ∧
    upserted_count r + matched_count r = Z.of_nat (length ops) ∧
    (batch_safe write_rank ops -> c' = fold_left upsert ops c).
Proof.
  intros Hops. unfold PhishTankETL.bulk_write.
  destruct (bulk_exec_upserts _
              (server_order_Forall _ (write_rank c ops) ops Hops)
              c (mkBulkWriteResult 0 0)) as (r & -> & Hups & Hall).
  rewrite server_order_length in Hall.
  exists r, (fold_left upsert (server_order (write_rank c ops) ops) c).
  simpl in Hups, Hall. split; [reflexivity|]. split; [lia|]. split; [lia|].
  intros [Hsrc | Hnd].
  - now rewrite server_order_source by (intros i; apply Hsrc).
  - symmetry. apply fold_upsert_perm; [|exact Hnd].
    symmetry. apply server_order_perm.
Qed.

(** A commit of record intents, seen from the invariant. *)
Lemma store_invariant_commit (w0 : World) (l : Locals) (w : World)
    (ops : list UpdateOne) (skip total : Z) :
  store_invariant write_rank w0 l w -> Forall record_intent ops ->
  total - skip
  = Z.of_nat (length (concat (commits
       (drop (length (trace w0)) (trace w))))) + Z.of_nat (length ops) ->
  store_invariant write_rank w0
    (mkLocals []
       (inserted l + (reported_counts (bulk_write (collection w) ops).2).1)
       (updated l + (reported_counts (bulk_write (collection w) ops).2).2)
       skip total)
    (after_commit ops w).
Proof.
  intros (_ & new & Htr & Hc & Hins & Hall & _) Hops Htotal.
  rewrite Htr, drop_app_length in Htotal.
  split; [constructor|].
  destruct (after_commit_trace ops w) as (tail & Htail & Hnone).
  exists (new ++ EvBulkWrite ops :: tail).
  rewrite after_commit_collection.
  destruct (bulk_write_upserts (collection w) ops Hops)
    as (r & c' & -> & Hups & Hboth & Hsafe).
  rewrite commits_app.
  change (commits (EvBulkWrite ops :: tail)) with (ops :: commits tail).
  rewrite Hnone, concat_app. simpl concat. rewrite app_nil_r.
  rewrite length_app. simpl.
  split; [rewrite Htail, Htr; now rewrite <- app_assoc|].
  split.
  { intros Hall'. apply Forall_app in Hall' as [Hnew Hops'].
    apply Forall_cons in Hops' as [Hops' _].
    rewrite fold_left_app, <- (Hc Hnew). now apply Hsafe. }
  repeat split; lia.
Qed.

Lemma store_invariant_step (w0 : World) (max_rows : option Z)
    (batch_size : Z) (row : RawRow) (l : Locals) (w : World)
    (l1 : Locals) (w1 : World) :
  store_invariant write_rank w0 l w ->
  loop_body max_rows batch_size row l w = (Ok (Continue, l1), w1) ->
  store_invariant write_rank w0 l1 w1.
Proof.
  intros Hinv. rewrite loop_body_unfold.
  destruct (cap_reached max_rows (processed l)); [discriminate|].
  destruct (transform fromisoformat row) as [[mk|]|e] eqn:Htr;
    [| |discriminate].
  - cbv zeta.
    assert (Hops : Forall record_intent
                     (pending_ops l ++ [upsert_of (mk (utcnow (ticks w)))])).
    { apply Forall_app. split; [apply Hinv|]. constructor; [|constructor].
      eapply record_intent_upsert_of, Htr. }
    destruct (Z.of_nat _ >=? batch_size); intros [= <- <-].
    + unfold commit_row.
      pose proof (store_invariant_commit w0 l (tick w) _
                    (skipped l) (processed l + 1) Hinv Hops) as Hcommit.
      apply Hcommit. destruct Hinv as (_ & new & Htr' & _ & _ & _ & Hcount).
      simpl trace. rewrite Htr', drop_app_length, length_app. simpl. lia.
    + destruct Hinv as (_ & new & Htr' & Hc & Hins & Hall & Hcount).
      split; [exact Hops|]. exists new. simpl.
      rewrite length_app. simpl. repeat split; try assumption. lia.
  - intros [= <- <-].
    destruct Hinv as (Hpend & new & Htr' & Hc & Hins & Hall & Hcount).
    split; [exact Hpend|]. exists new. simpl.
    repeat split; try assumption. lia.
Qed.

Lemma intents_keys (rows : list RawRow) :
  ∀ t, map uo_filter (intents fromisoformat utcnow rows t)
       = accepted_keys fromisoformat rows.
Proof.
  unfold accepted_keys. generalize 0%nat.
  induction rows as [|row rest IH]; intros t0 t; [reflexivity|]. simpl.
  destruct (transform fromisoformat row) as [[mk|]|e] eqn:Htr;
    try apply IH.
  destruct (transform_record row mk Htr) as (pid & link & sub & v & -> & _).
  simpl. f_equal. apply IH.
Qed.

Lemma batch_safe_parts (bs : list (list UpdateOne)) (p : list UpdateOne) :
  source_ordered write_rank ∨ NoDup (map uo_filter (concat bs ++ p)) ->
  Forall (batch_safe write_rank) bs ∧ batch_safe write_rank p.
Proof.
  intros [Hsrc | Hnd].
  - split; [apply Forall_forall; intros b _|]; now left.
  - rewrite map_app in Hnd. apply NoDup_app in Hnd as (Hbs & _ & Hp).
    split; [|now right]. clear Hp.
    induction bs as [|b bs IH]; [constructor|]. simpl in Hbs.
    rewrite map_app in Hbs. apply NoDup_app in Hbs as (Hb & _ & Hbs).
    constructor; [now right | now apply IH].
Qed.

(** A run over string-valued rows when no write is rejected and the
    order of a bulk cannot matter: the collection is the one before with
    the intents of the rows processed upserted in order, [inserted] is
    the number of documents gained, [inserted + updated] and
    [processed - skipped] are the number of intents. *)
Lemma ingest_upserts (max_rows : option Z) (batch_size : Z)
    (reader : list RawRow) (w : World) :
  forallb string_valued reader = true ->
  source_ordered write_rank
  ∨ NoDup (accepted_keys fromisoformat (rows_within max_rows 0 reader)) ->
  let ops := intents fromisoformat utcnow (rows_within max_rows 0 reader)
               (ticks w) in
  ∃ unread w' ins upd skip total,
    ingest max_rows batch_size reader w = (Ok unread, w') ∧
    reported w' = Some (ins, upd, skip, total) ∧
    collection w' = fold_left upsert ops (collection w) ∧
    ins = Z.of_nat (size (collection w')) - Z.of_nat (size (collection w)) ∧
    ins + upd = Z.of_nat (length ops) ∧
    total - skip = Z.of_nat (length ops).
Proof.
  intros Hrows Horder ops.
  destruct (for_rows_batches max_rows batch_size reader Hrows fresh w)
    as (l & unread & w1 & new & Hloop & Htr & _ & _ & Hcat).
  { simpl. unfold effective_batch. lia. }
  simpl in Hcat. fold ops in Hcat.
  destruct (for_rows_invariant (store_invariant write_rank w) max_rows
              batch_size (store_invariant_step w max_rows batch_size)
              reader fresh w (Ok (l, unread)) w1) as (l0 & Hinv & Hl);
    [|exact Hloop|].
  { split; [constructor|]. exists []. rewrite app_nil_r. simpl.
    repeat split; lia. }
  rewrite <- (Hl _ eq_refl) in Hinv. simpl in Hinv. clear Hl l0.
  destruct (ingest_after_loop _ _ _ _ _ _ _ Hloop)
    as (l' & w2 & Hf & _ & _ & Hrun).
  exists unread. eexists _, _, _, _, _. split; [exact Hrun|].
  split; [apply reported_emit_done|]. simpl collection.
  rewrite flush_unfold in Hf.
  destruct Hinv as (Hpend & new' & Htr' & Hc & Hins & Hall & Hcount).
  assert (new' = new) as ->
    by (rewrite Htr in Htr'; eapply app_inv_head, eq_sym, Htr').
  destruct (batch_safe_parts (commits new) (pending_ops l))
    as [Hsafe Hsafe_p].
  { destruct Horder as [Hsrc | Hnd]; [now left | right].
    rewrite Hcat. unfold ops. now rewrite intents_keys. }
  specialize (Hc Hsafe).
  destruct (pending_ops l) as [|op rest] eqn:Hp.
  - injection Hf as <- <-. rewrite app_nil_r in Hcat. rewrite <- Hcat.
    simpl in Hcount. repeat split; try assumption. lia.
  - cbv zeta in Hf. injection Hf as <- <-. simpl.
    rewrite after_commit_collection.
    destruct (bulk_write_upserts (collection w1) (op :: rest) Hpend)
      as (r & c' & -> & Hups & Hboth & Hfold).
    specialize (Hfold Hsafe_p). subst c'.
    rewrite <- Hcat, fold_left_app, <- Hc, length_app. simpl fst. simpl snd.
    simpl reported_counts. simpl fst. simpl snd.
    split; [reflexivity|]. cbn [fold_left] in *. repeat split; lia.
Qed.

End NoWriteErrors.

(** *** Upserting the same records again *)

Lemma union_absorb (d s e : Doc) :
  dom s ⊆ dom d -> d ∪ (s ∪ e) = d ∪ e.
Proof.
  intros Hdom. apply map_eq. intros f.
  destruct (d !! f) as [x|] eqn:Hd.
  - rewrite !lookup_union_l' by (rewrite Hd; eauto). reflexivity.
  - assert (s !! f = None) as Hs.
    { apply not_elem_of_dom. intros Hin. apply Hdom in Hin.
      apply elem_of_dom in Hin as [y Hy]. congruence. }
    now rewrite !lookup_union_r by assumption.
Qed.

Lemma last_write_intent (k : string) (ops : list UpdateOne) (d : Doc) :
  Forall record_intent ops -> last_write k ops = Some d ->
  dom d = list_to_set record_fields.
Proof.
  induction 1 as [|op ops Hop Hops IH]; [discriminate|]. simpl.
  destruct (last_write k ops) as [d'|]; [intros [= <-]; now apply IH|].
  destruct (decide (uo_filter op = k)); [|discriminate].
  intros [= <-]. apply Hop.
Qed.

(** The collection after a sequence of upserts, key by key: the fields
    of the last intent for the key, over what the document had. *)
Lemma fold_upsert_lookup (ops : list UpdateOne) :
  Forall record_intent ops ->
  ∀ (c : gmap string Doc) (k : string),
    fold_left upsert ops c !! k
    = match last_write k ops with
      | Some d => Some (d ∪ default ∅ (c !! k))
      | None => c !! k
      end.
Proof.
  induction 1 as [|op ops Hop Hops IH]; intros c k; [reflexivity|].
  cbn [fold_left last_write]. rewrite IH.
  pose proof (last_write_intent k ops) as Hlast.
  unfold upsert at 1 2.
  destruct (last_write k ops) as [d|];
    destruct (decide (uo_filter op = k)) as [<-|Hne];
    rewrite ?lookup_insert_eq, ?lookup_insert_ne by assumption;
    try reflexivity.
  simpl. f_equal. apply union_absorb.
  rewrite (Hlast d Hops eq_refl). destruct Hop as (_ & -> & _). reflexivity.
Qed.


Lemma intents_record (rows : list RawRow) :
  ∀ t, Forall record_intent (intents fromisoformat utcnow rows t).
Proof.
  induction rows as [|row rest IH]; intros t; [constructor|]. simpl.
  destruct (transform fromisoformat row) as [[mk|]|e] eqn:Htr; try apply IH.
  constructor; [|apply IH]. eapply record_intent_upsert_of, Htr.
Qed.



(** A run whose first request succeeds is the ingestion of the feed. *)
Lemma run_fetches (max_rows : option Z) (batch_size : Z)
    (feed : list RawRow) (w : World) :
  http_get (requests w) = Some feed ->
  run max_rows batch_size w
  = (ingest max_rows batch_size feed ;; mret tt)
      (emit EvGet (mkWorld (collection w) (ticks w) (S (requests w))
                     (trace w))).
Proof.
  intros Hget. unfold PhishTankETL.run, _fetch_csv.
  change (range 3) with [0; 1; 2]. cbn [fetch_attempts].
  unfold mbind at 1, M_bind at 1.
  unfold mbind at 1, M_bind at 1, requests_get at 1.
  rewrite Hget. reflexivity.
Qed.





(** *** Further properties of the run *)

(** A run is a fetch that raises, or a fetch followed by the ingestion
    of the reader it returned. *)
Lemma run_cases (max_rows : option Z) (batch_size : Z) (w : World)
    (r : Result unit) (w' : World) :
  run max_rows batch_size w = (r, w') ->
  (∃ e, _fetch_csv http_get 3 5 w = (Raise e, w') ∧ r = Raise e) ∨
  (∃ reader w0 r1,
     _fetch_csv http_get 3 5 w = (Ok reader, w0) ∧
     ingest max_rows batch_size reader w0 = (r1, w') ∧
     r = match r1 with Ok _ => Ok tt | Raise e => Raise e end).
Proof.
  unfold PhishTankETL.run. unfold mbind at 1, M_bind at 1.
  destruct (_fetch_csv http_get 3 5 w) as [[reader|e] w0].
  - unfold mbind, M_bind.
    destruct (ingest max_rows batch_size reader w0) as [r1 w1] eqn:Hing.
    intros Hend. right. exists reader, w0, r1.
    destruct r1; injection Hend as <- <-; auto.
  - intros [= <- <-]. left. eauto.
Qed.

(** An invariant of the loop that the final flush and the report keep
    holds at the end of the ingestion, however it ends. *)
Lemma ingest_invariant (Inv : Locals -> World -> Prop)
    (max_rows : option Z) (batch_size : Z) (reader : list RawRow)
    (w0 : World) :
  Inv fresh w0 ->
  (∀ row l w l1 w1,
     Inv l w ->
     loop_body max_rows batch_size row l w = (Ok (Continue, l1), w1) ->
     Inv l1 w1) ->
  (∀ l w l' w', Inv l w -> flush l w = (Ok l', w') -> Inv l' w') ->
  (∀ l w line, Inv l w -> Inv l (emit (EvPrint line) w)) ->
  ∀ r w', ingest max_rows batch_size reader w0 = (r, w') -> ∃ l, Inv l w'.
Proof.
  intros Hinit Hstep Hflush Hprint r w'.
  unfold PhishTankETL.ingest. fold fresh. unfold mbind at 1, M_bind at 1.
  destruct (for_rows max_rows batch_size reader fresh w0)
    as [lu w1] eqn:Hloop.
  destruct (for_rows_invariant Inv max_rows batch_size Hstep
              reader fresh w0 lu w1 Hinit Hloop) as (l & Hinv & Hl).
  destruct lu as [[l0 unread]|e]; [|intros [= <- <-]; eauto].
  rewrite <- (Hl _ eq_refl) in Hinv. simpl in Hinv.
  destruct (flush_returns l0 w1) as (l' & w2 & Hf & _).
  unfold mbind at 1, M_bind at 1. rewrite Hf.
  unfold mbind, M_bind, print. intros [= <- <-].
  exists l'. apply Hprint. eapply Hflush; eassumption.
Qed.

Lemma nonempty_commits_commit (w0 : World) (l l1 : Locals) (w : World)
    (ops : list UpdateOne) :
  nonempty_commits w0 l w -> ops ≠ [] ->
  nonempty_commits w0 l1 (after_commit ops w).
Proof.
  intros (new & Htr & Hall) Hne.
  destruct (after_commit_trace ops w) as (tail & Htail & Hnone).
  exists (new ++ EvBulkWrite ops :: tail).
  split; [rewrite Htail, Htr; now rewrite <- app_assoc|].
  rewrite commits_app.
  change (commits (EvBulkWrite ops :: tail)) with (ops :: commits tail).
  rewrite Hnone. apply Forall_app. split; [exact Hall|].
  constructor; [exact Hne | constructor].
Qed.

(** X8. The store is never handed an empty batch: every bulk write of a run,
    however the run ends and whatever the batch size, carries at least
    one upsert. *)
Theorem run_commits_nonempty_batches (max_rows : option Z)
    (batch_size : Z) (w : World) (r : Result unit) (w' : World) :
  run max_rows batch_size w = (r, w') ->
  ∃ new, trace w' = trace w ++ new ∧
         Forall (fun b : list UpdateOne => b ≠ []) (commits new).
Proof.
  intros Hrun.
  destruct (run_cases _ _ _ _ _ Hrun)
    as [(e & Hfetch & _) | (reader & w0 & r1 & Hfetch & Hing & _)];
    apply fetch_attempts_store in Hfetch as (_ & _ & new0 & Htr0 & Hnone).
  { exists new0. split; [exact Htr0|]. rewrite Hnone. constructor. }
  destruct (ingest_invariant (nonempty_commits w0) max_rows batch_size
              reader w0) with (r := r1) (w' := w') as (l & new & Htr & Hall).
  - exists []. rewrite app_nil_r. split; [reflexivity | constructor].
  - intros row l w1 l1 w2 Hinv. rewrite loop_body_unfold.
    destruct (cap_reached max_rows (processed l)); [discriminate|].
    destruct (transform fromisoformat row) as [[mk|]|e];
      [|intros [= <- <-]; exact Hinv|discriminate].
    cbv zeta. destruct (Z.of_nat _ >=? batch_size); intros [= <- <-].
    + apply (nonempty_commits_commit w0 l); [exact Hinv|].
      intros Hnil. apply app_eq_nil in Hnil as [_ Hnil]. discriminate.
    + exact Hinv.
  - intros l w1 l' w2 Hinv. rewrite flush_unfold.
    destruct (pending_ops l) as [|op ops] eqn:Hp; intros [= <- <-].
    + exact Hinv.
    + apply (nonempty_commits_commit w0 l); [exact Hinv | discriminate].
  - intros l w1 line (new & Htr & Hall).
    exists (new ++ [EvPrint line]).
    split; [simpl; rewrite Htr; now rewrite <- app_assoc|].
    rewrite commits_app. simpl. now rewrite app_nil_r.
  - exact Hing.
  - exists (new0 ++ new).
    split; [rewrite Htr, Htr0; now rewrite <- app_assoc|].
    rewrite commits_app, Hnone. exact Hall.
Qed.

Lemma update_one_keyed (c : gmap string Doc) (op : UpdateOne) :
  record_intent op -> keyed c -> keyed (update_one write_error c op).1.
Proof.
  intros (_ & _ & Hpid) Hc. unfold update_one.
  destruct (write_error c op); [exact Hc|].
  assert (Hnew : ∀ d : Doc,
            (uo_set op ∪ d) !! "phish_id" = Some (BStr (uo_filter op))).
  { intros d. rewrite lookup_union_l' by (rewrite Hpid; eauto). exact Hpid. }
  destruct (c !! uo_filter op) as [d|] eqn:Hk;
    [|destruct (uo_upsert op); [|exact Hc]];
    intros k doc; simpl;
    (destruct (decide (uo_filter op = k)) as [<-|Hne];
     [rewrite lookup_insert_eq; intros [= <-]; apply Hnew
     |rewrite lookup_insert_ne by assumption; apply Hc]).
Qed.

Lemma bulk_exec_keyed (ops : list UpdateOne) :
  Forall record_intent ops ->
  ∀ c r failed,
    keyed c -> keyed (bulk_exec write_error c ops r failed).1.1.
Proof.
  induction 1 as [|op ops Hop Hops IH]; intros c r failed Hc; [exact Hc|].
  cbn [bulk_exec]. pose proof (update_one_keyed c op Hop Hc) as Hone.
  destruct (update_one write_error c op) as [c1 [| | |]]; now apply IH.
Qed.

Lemma bulk_write_keyed (c : gmap string Doc) (ops : list UpdateOne) :
  Forall record_intent ops -> keyed c -> keyed (bulk_write c ops).1.
Proof.
  intros Hops Hc. unfold PhishTankETL.bulk_write.
  pose proof (bulk_exec_keyed _
                (server_order_Forall _ (write_rank c ops) ops Hops)
                c (mkBulkWriteResult 0 0) [] Hc) as H.
  destruct (bulk_exec write_error c _ _ _) as [[c1 r1] failed1]. exact H.
Qed.

(** X9. A collection whose documents carry their key in [phish_id] stays so
    through a run, however the run ends and whatever writes the server
    rejects: the documents a run creates or updates have the [phish_id]
    they are found by. *)
Theorem run_keeps_documents_keyed (max_rows : option Z)
    (batch_size : Z) (w : World) (r : Result unit) (w' : World) :
  keyed (collection w) ->
  run max_rows batch_size w = (r, w') ->
  keyed (collection w').
Proof.
  intros Hkeyed Hrun.
  destruct (run_cases _ _ _ _ _ Hrun)
    as [(e & Hfetch & _) | (reader & w0 & r1 & Hfetch & Hing & _)];
    apply fetch_attempts_store in Hfetch as (Hc & _).
  { now rewrite Hc. }
  destruct (ingest_invariant keyed_invariant max_rows batch_size
              reader w0) with (r := r1) (w' := w') as (l & _ & Hk).
  - split; [constructor | now rewrite Hc].
  - intros row l w1 l1 w2 [Hpend Hk]. rewrite loop_body_unfold.
    destruct (cap_reached max_rows (processed l)); [discriminate|].
    destruct (transform fromisoformat row) as [[mk|]|e] eqn:Htr;
      [|intros [= <- <-]; now split|discriminate].
    cbv zeta.
    assert (Hops : Forall record_intent
                     (pending_ops l ++ [upsert_of (mk (utcnow (ticks w1)))])).
    { apply Forall_app. split; [exact Hpend|]. constructor; [|constructor].
      eapply record_intent_upsert_of, Htr. }
    destruct (Z.of_nat _ >=? batch_size); intros [= <- <-].
    + split; [constructor|]. rewrite after_commit_collection.
      now apply bulk_write_keyed.
    + now split.
  - intros l w1 l' w2 [Hpend Hk]. rewrite flush_unfold.
    destruct (pending_ops l) as [|op ops] eqn:Hp; intros [= <- <-].
    + split; [rewrite Hp; constructor | exact Hk].
    + split; [exact Hpend|]. rewrite after_commit_collection.
      now apply bulk_write_keyed.
  - intros l w1 line Hinv. exact Hinv.
  - exact Hing.
  - exact Hk.
Qed.

Lemma bulk_exec_counts (ops : list UpdateOne) :
  ∀ c r failed,
    let r' := (bulk_exec write_error c ops r failed).1.2 in
    upserted_count r <= upserted_count r' ∧
    matched_count r <= matched_count r' ∧
    upserted_count r' + matched_count r'
    <= upserted_count r + matched_count r + Z.of_nat (length ops).
Proof.
  induction ops as [|op ops IH]; intros c r failed; simpl; [lia|].
  destruct (update_one write_error c op) as [c1 [| | |]];
    match goal with
    | |- context [bulk_exec _ ?c2 ops ?r2 ?f2] =>
        specialize (IH c2 r2 f2); simpl in IH
    end; lia.
Qed.

(** The counts [_commit_batch] reports are not negative and add up to
    no more than the size of the batch. *)
Lemma reported_counts_bound (c : gmap string Doc) (ops : list UpdateOne) :
  let counts := reported_counts (bulk_write c ops).2 in
  0 <= counts.1 ∧ 0 <= counts.2 ∧
  counts.1 + counts.2 <= Z.of_nat (length ops).
Proof.
  unfold PhishTankETL.bulk_write.
  pose proof (bulk_exec_counts (server_order (write_rank c ops) ops) c
                (mkBulkWriteResult 0 0) []) as H.
  rewrite server_order_length in H.
  destruct (bulk_exec write_error c _ _ _) as [[c1 r1] failed1].
  simpl in H. destruct failed1; simpl; lia.
Qed.

(** [_commit_batch] always returns: it hands the batch to the store in
    one bulk write, touches neither the clock nor the network, and
    reports counts that are not negative and add up to no more than the
    size of the batch. *)
Lemma commit_batch_returns_bounded_counts (ops : list UpdateOne)
    (w : World) :
  ∃ ins upd w' tail,
    _commit_batch ops w = (Ok (ins, upd), w') ∧
    0 <= ins ∧ 0 <= upd ∧ ins + upd <= Z.of_nat (length ops) ∧
    trace w' = trace w ++ EvBulkWrite ops :: tail ∧ commits tail = [] ∧
    ticks w' = ticks w ∧ requests w' = requests w.
Proof.
  rewrite commit_batch_unfold.
  pose proof (reported_counts_bound (collection w) ops) as (Hi & Hu & Hsum).
  destruct (after_commit_trace ops w) as (tail & Htail & Hnone).
  destruct (reported_counts (bulk_write (collection w) ops).2)
    as [ins upd] eqn:Hcounts.
  exists ins, upd, (after_commit ops w), tail.
  split; [reflexivity|]. simpl in Hi, Hu, Hsum.
  repeat split; try assumption; try apply after_commit_ticks.
  unfold after_commit.
  destruct (bulk_write (collection w) ops).2; reflexivity.
Qed.

Lemma account_invariant_step (max_rows : option Z) (batch_size : Z)
    (row : RawRow) (l : Locals) (w : World) (l1 : Locals) (w1 : World) :
  account_invariant l w ->
  loop_body max_rows batch_size row l w = (Ok (Continue, l1), w1) ->
  account_invariant l1 w1.
Proof.
  unfold account_invariant. intros Hinv. rewrite loop_body_unfold.
  destruct (cap_reached max_rows (processed l)); [discriminate|].
  destruct (transform fromisoformat row) as [[mk|]|e];
    [|intros [= <- <-]; simpl; lia|discriminate].
  cbv zeta.
  destruct (Z.of_nat _ >=? batch_size); intros [= <- <-]; simpl.
  - match goal with
    | |- context [reported_counts (bulk_write ?c ?ops).2] =>
        pose proof (reported_counts_bound c ops) as Hb
    end.
    simpl in Hb. rewrite length_app in Hb. simpl in Hb. lia.
  - rewrite length_app. simpl. lia.
Qed.

(** X10. The report of a completed ingestion, whatever writes the server
    rejected: no count is negative, [skipped] is at most [processed],
    and [inserted + updated] is at most the number of accepted rows,
    [processed - skipped]; rejected writes can only make it smaller. *)
Theorem report_is_a_lower_bound (max_rows : option Z) (batch_size : Z)
    (reader unread : list RawRow) (w w' : World) :
  ingest max_rows batch_size reader w = (Ok unread, w') ->
  ∃ ins upd skip total,
    reported w' = Some (ins, upd, skip, total) ∧
    0 <= ins ∧ 0 <= upd ∧ 0 <= skip <= total ∧
    ins + upd <= total - skip.
Proof.
  intros Hing.
  destruct (for_rows max_rows batch_size reader fresh w)
    as [lu w1] eqn:Hloop.
  destruct (for_rows_invariant account_invariant max_rows batch_size
              (account_invariant_step max_rows batch_size)
              reader fresh w lu w1) as (l0 & Hinv & Hl);
    [unfold account_invariant; simpl; lia | exact Hloop |].
  destruct lu as [[l u]|e].
  - rewrite <- (Hl _ eq_refl) in Hinv. simpl in Hinv. clear Hl l0.
    destruct (ingest_after_loop _ _ _ _ _ _ _ Hloop)
      as (l' & w2 & Hf & Hs & Hp & Hrun).
    rewrite Hing in Hrun. injection Hrun as _ ->.
    eexists _, _, _, _. split; [apply reported_emit_done|].
    rewrite flush_unfold in Hf. unfold account_invariant in Hinv.
    destruct (pending_ops l) as [|op ops] eqn:Hpend.
    + injection Hf as <- _. simpl in Hinv. lia.
    + cbv zeta in Hf. injection Hf as <- _. simpl.
      pose proof (reported_counts_bound (collection w1) (op :: ops)) as Hb.
      simpl in Hb, Hinv. lia.
  - unfold PhishTankETL.ingest in Hing. fold fresh in Hing.
    rewrite (bind_raise _ _ _ _ _ Hloop) in Hing. discriminate.
Qed.

Lemma transform_blank_required (row : RawRow) :
  string_valued row = true ->
  if blank_required row
  then transform fromisoformat row = Ok None
  else ∃ mk, transform fromisoformat row = Ok (Some mk).
Proof.
  unfold string_valued, blank_required, not_null, trimmed, transform,
    row_get.
  destruct (row !! "phish_id") as [[|pid]|]; try discriminate;
    destruct (row !! "url") as [[|link]|]; try discriminate;
    destruct (row !! "verified") as [[|v]|]; try discriminate; simpl;
    intros _; try reflexivity;
    try (destruct (PyStr.strip pid) as [|c p]; simpl; try reflexivity;
         try (destruct (PyStr.strip link) as [|c' q]; simpl;
              try reflexivity; eauto)).
Qed.

(** The loop over string-valued rows counts every row it processes and,
    among them, the rows with a blank required field; it reads the clock
    once for each of the others. *)
Lemma for_rows_counts (max_rows : option Z) (batch_size : Z)
    (reader : list RawRow) :
  forallb string_valued reader = true ->
  ∀ (l : Locals) (w : World),
    let rows := rows_within max_rows (processed l) reader in
    ∃ l' unread w',
      for_rows max_rows batch_size reader l w = (Ok (l', unread), w') ∧
      processed l' = processed l + Z.of_nat (length rows) ∧
      skipped l'
      = skipped l + Z.of_nat (length (List.filter blank_required rows)) ∧
      (ticks w' + length (List.filter blank_required rows)
       = ticks w + length rows)%nat.
Proof.
  induction reader as [|row rest IH]; intros Hrows l w rows.
  - exists l, [], w. split; [reflexivity|].
    assert (rows = []) as ->.
    { unfold rows, rows_within. destruct max_rows as [m|]; [|reflexivity].
      destruct (m =? 0); [reflexivity | now rewrite take_nil]. }
    simpl. repeat split; lia.
  - simpl in Hrows. apply andb_true_iff in Hrows as [Hrow Hrest].
    destruct (cap_reached max_rows (processed l)) eqn:Hcap.
    { exists l, rest, w. rewrite for_rows_break by assumption.
      split; [reflexivity|]. unfold rows.
      rewrite rows_within_break by assumption. simpl. repeat split; lia. }
    unfold rows. rewrite rows_within_cons by assumption.
    pose proof (loop_body_unfold max_rows batch_size row l w) as Hbody.
    rewrite Hcap in Hbody.
    pose proof (transform_blank_required row Hrow) as Htr.
    cbn [List.filter length].
    destruct (blank_required row).
    + rewrite Htr in Hbody.
      rewrite (for_rows_cons _ _ _ _ _ _ _ _ Hbody).
      destruct (IH Hrest (skip_row l) w)
        as (l' & unread & w' & Hrun & Hp & Hs & Ht).
      exists l', unread, w'. split; [exact Hrun|].
      simpl in Hp, Hs, Ht. cbn [length]. repeat split; lia.
    + destruct Htr as [mk Htr]. rewrite Htr in Hbody. cbv zeta in Hbody.
      destruct (Z.of_nat _ >=? batch_size);
        rewrite (for_rows_cons _ _ _ _ _ _ _ _ Hbody);
        match goal with
        | |- context [for_rows _ _ rest ?l1 ?w1] =>
            destruct (IH Hrest l1 w1)
              as (l' & unread & w' & Hrun & Hp & Hs & Ht)
        end;
        exists l', unread, w'; (split; [exact Hrun|]);
        rewrite ?after_commit_ticks in Ht; simpl in Hp, Hs, Ht;
        repeat split; lia.
Qed.

(** X11. The report of a run over string-valued rows counts what the loop
    did: [processed] is the number of rows within the cap and [skipped]
    the number of those with a blank required field; the clock has been
    read once for each of the others. *)
Theorem report_counts_rows (max_rows : option Z) (batch_size : Z)
    (reader : list RawRow) (w : World) :
  forallb string_valued reader = true ->
  let rows := rows_within max_rows 0 reader in
  ∃ unread w' ins upd,
    ingest max_rows batch_size reader w = (Ok unread, w') ∧
    reported w'
    = Some (ins, upd, Z.of_nat (length (List.filter blank_required rows)),
            Z.of_nat (length rows)) ∧
    (ticks w' + length (List.filter blank_required rows)
     = ticks w + length rows)%nat.
Proof.
  intros Hrows rows.
  destruct (for_rows_counts max_rows batch_size reader Hrows fresh w)
    as (l & unread & w1 & Hloop & Hp & Hs & Ht).
  destruct (ingest_after_loop _ _ _ _ _ _ _ Hloop)
    as (l' & w2 & Hf & Hs' & Hp' & Hrun).
  simpl in Hp, Hs, Ht. fold rows in Hp, Hs, Ht.
  exists unread. eexists _, _, _. split; [exact Hrun|].
  rewrite reported_emit_done, Hs', Hp', Hs, Hp. split; [reflexivity|].
  simpl ticks. rewrite flush_unfold in Hf.
  destruct (pending_ops l); [injection Hf as _ <-; exact Ht|].
  cbv zeta in Hf. injection Hf as _ <-. now rewrite after_commit_ticks.
Qed.

(** X12. With a negative cap the run processes nothing: the first turn of
    the loop finds the cap reached, so one row is taken off the reader
    and dropped, nothing is transformed or written, and the report is
    all zeros. *)
Theorem negative_cap_processes_nothing (m batch_size : Z)
    (reader : list RawRow) (w : World) :
  m < 0 ->
  ingest (Some m) batch_size reader w
  = (Ok (drop 1 reader), emit (EvPrint (LDone 0 0 0 0)) w).
Proof.
  intros Hm. unfold PhishTankETL.ingest. fold fresh.
  assert (Hloop : for_rows (Some m) batch_size reader fresh w
                  = (Ok (fresh, drop 1 reader), w)).
  { destruct reader as [|row rest]; [reflexivity|].
    apply for_rows_break. simpl. apply andb_true_iff.
    split; [apply negb_true_iff; lia | apply Z.geb_le; lia]. }
  rewrite (bind_ok _ _ _ _ _ Hloop). reflexivity.
Qed.

Lemma intents_length (rows : list RawRow) :
  ∀ t, (length (intents fromisoformat utcnow rows t) <= length rows)%nat.
Proof.
  induction rows as [|row rest IH]; intros t; simpl; [lia|].
  destruct (transform fromisoformat row) as [[mk|]|e]; simpl;
    [specialize (IH (S t)) | specialize (IH t) | specialize (IH t)]; lia.
Qed.

Lemma rows_within_cap_length (m : Z) (reader : list RawRow) :
  0 < m -> Z.of_nat (length (rows_within (Some m) 0 reader)) <= m.
Proof.
  intros Hm. unfold rows_within.
  assert ((m =? 0) = false) as -> by lia.
  rewrite length_take. lia.
Qed.

(** X13. When the cap is positive and no larger than the batch size, as in
    the call [run(max_rows=500, batch_size=500)] of the script, a run
    over string-valued rows hands the store at most one batch, of at
    most [max_rows] upserts. *)
Theorem cap_within_batch_commits_once (m batch_size : Z)
    (feed : list RawRow) (w : World) :
  0 < m <= batch_size ->
  http_get (requests w) = Some feed ->
  forallb string_valued feed = true ->
  ∃ w' new,
    run (Some m) batch_size w = (Ok tt, w') ∧
    trace w' = trace w ++ new ∧
    (length (commits new) <= 1)%nat ∧
    Z.of_nat (length (concat (commits new))) <= m.
Proof.
  intros Hm Hget Hrows. rewrite (run_fetches _ _ _ _ Hget).
  set (w0 := emit EvGet _).
  destruct (for_rows_batches (Some m) batch_size feed Hrows fresh w0)
    as (l & unread & w1 & new & Hloop & Htr & Hall & Hp & Hcat).
  { simpl. unfold effective_batch. lia. }
  destruct (ingest_after_loop _ _ _ _ _ _ _ Hloop)
    as (l' & w2 & Hf & _ & _ & Hrun).
  unfold mbind, M_bind. rewrite Hrun.
  pose proof (intents_length (rows_within (Some m) 0 feed) (ticks w0))
    as Hlen.
  pose proof (rows_within_cap_length m feed (proj1 Hm)) as Hcap.
  assert (Hbound : Z.of_nat (length (concat (commits new) ++ pending_ops l))
                   <= m).
  { rewrite Hcat. cbn [fresh pending_ops processed app]. lia. }
  clear Hlen Hcap Hcat. rename Hbound into Hcat.
  rewrite length_app in Hcat.
  assert (Heff : effective_batch batch_size = Z.to_nat batch_size)
    by (unfold effective_batch; lia).
  rewrite Heff in Hall, Hp.
  assert (Hflush : ∃ tail,
            trace w2 = trace w1 ++ tail ∧
            commits tail = match pending_ops l with
                           | [] => []
                           | _ => [pending_ops l]
                           end).
  { rewrite flush_unfold in Hf.
    destruct (pending_ops l) as [|op ops] eqn:Hpend.
    - injection Hf as _ <-. exists []. now rewrite app_nil_r.
    - cbv zeta in Hf. injection Hf as _ <-.
      destruct (after_commit_trace (op :: ops) w1) as (tail & Htail & Hnone).
      exists (EvBulkWrite (op :: ops) :: tail). split; [exact Htail|].
      change (commits (EvBulkWrite ?x :: ?t)) with (x :: commits t).
      now rewrite Hnone. }
  destruct Hflush as (tail & Htail & Hctail).
  eexists _, ([EvGet] ++ new ++ tail ++ [EvPrint _]).
  split; [reflexivity|]. split.
  { simpl. rewrite Htail, Htr. simpl. rewrite <- !app_assoc. reflexivity. }
  rewrite !commits_app, Hctail. simpl. rewrite app_nil_r.
  destruct (commits new) as [|b bs] eqn:Hcommits.
  - simpl in Hcat. destruct (pending_ops l); simpl in *; split; try lia.
    rewrite app_nil_r. lia.
  - apply Forall_cons in Hall as [Hb Hbs]. simpl in Hcat.
    rewrite length_app in Hcat.
    assert (pending_ops l = []) as ->
      by (destruct (pending_ops l); [reflexivity | simpl in Hcat; lia]).
    assert (bs = []) as ->.
    { destruct bs as [|b' bs']; [reflexivity|].
      apply Forall_cons in Hbs as [Hb' _]. simpl in Hcat.
      rewrite length_app in Hcat. lia. }
    simpl in *. rewrite !app_nil_r. split; lia.
Qed.

Lemma for_rows_app_uncapped (batch_size : Z) (pre rest : list RawRow) :
  ∀ (l l' : Locals) (unread : list RawRow) (w w' : World),
    for_rows None batch_size pre l w = (Ok (l', unread), w') ->
    for_rows None batch_size (pre ++ rest) l w
    = for_rows None batch_size rest l' w'.
Proof.
  induction pre as [|row pre IH]; intros l l' unread w w' Hrun.
  - injection Hrun as <- _ <-. reflexivity.
  - cbn [PhishTankETL.for_rows app] in Hrun |- *.
    unfold mbind, M_bind in Hrun |- *.
    pose proof (loop_body_unfold None batch_size row l w) as Hbody.
    simpl cap_reached in Hbody. cbv iota in Hbody.
    destruct (loop_body None batch_size row l w)
      as [[[[|] l1]|e] w1]; [|exfalso|discriminate].
    + eapply IH, Hrun.
    + destruct (transform fromisoformat row) as [[mk|]|e];
        [cbv zeta in Hbody; destruct (Z.of_nat _ >=? batch_size)| |];
        discriminate.
Qed.

Lemma unreported_step (w0 : World) (max_rows : option Z) (batch_size : Z)
    (row : RawRow) (l : Locals) (w : World) (l1 : Locals) (w1 : World) :
  unreported w0 l w ->
  loop_body max_rows batch_size row l w = (Ok (Continue, l1), w1) ->
  unreported w0 l1 w1.
Proof.
  intros (new & Htr & Hnone). rewrite loop_body_unfold.
  destruct (cap_reached max_rows (processed l)); [discriminate|].
  destruct (transform fromisoformat row) as [[mk|]|e];
    [|intros [= <- <-]; now exists new|discriminate].
  cbv zeta. destruct (Z.of_nat _ >=? batch_size); intros [= <- <-];
    [|now exists new].
  unfold after_commit.
  destruct (bulk_write _ _).2 as [res|details];
    [exists (new ++ [EvBulkWrite
                       (pending_ops l ++ [upsert_of (mk (utcnow (ticks w)))])])
    |exists (new ++ [EvBulkWrite
                       (pending_ops l ++ [upsert_of (mk (utcnow (ticks w)))]);
                     EvPrint (LBulkWriteError details)])];
    (split; [simpl; rewrite Htr; now rewrite <- !app_assoc|]);
    rewrite existsb_app, Hnone; reflexivity.
Qed.

(** X16. A row with a null field in the transformer's way aborts an uncapped
    run where it stands: the rows before it have been processed and their
    full batches committed, but the records still pending are never
    written, no report is printed, and the rows after it are not
    looked at. *)
Theorem null_row_aborts_run (batch_size : Z) (pre post : list RawRow)
    (bad : RawRow) (w : World) :
  forallb string_valued pre = true -> null_read bad = true ->
  ∃ l w' new,
    for_rows None batch_size pre fresh w = (Ok (l, []), w') ∧
    ingest None batch_size (pre ++ bad :: post) w
    = (Raise AttributeError, w') ∧
    trace w' = trace w ++ new ∧
    existsb is_done new = false ∧
    Forall (fun b => length b = effective_batch batch_size) (commits new) ∧
    concat (commits new) ++ pending_ops l
    = intents fromisoformat utcnow pre (ticks w) ∧
    (length (pending_ops l) < effective_batch batch_size)%nat.
Proof.
  intros Hpre Hbad.
  destruct (for_rows_batches None batch_size pre Hpre fresh w)
    as (l & unread & w' & new & Hloop & Htr & Hall & Hp & Hcat).
  { simpl. unfold effective_batch. lia. }
  destruct (for_rows_uncapped batch_size pre Hpre fresh w)
    as (l2 & w2 & Hloop2 & _).
  rewrite Hloop in Hloop2. injection Hloop2 as <- -> <-.
  destruct (for_rows_invariant (unreported w) None batch_size
              (unreported_step w None batch_size)
              pre fresh w (Ok (l, [])) w') as (l0 & (new' & Htr' & Hnone) & _);
    [exists []; now rewrite app_nil_r | exact Hloop |].
  assert (new' = new) as ->
    by (rewrite Htr in Htr'; eapply app_inv_head, eq_sym, Htr').
  exists l, w', new. split; [exact Hloop|]. split.
  - unfold PhishTankETL.ingest. fold fresh. apply bind_raise.
    rewrite (for_rows_app_uncapped _ _ _ _ _ _ _ _ Hloop).
    cbn [PhishTankETL.for_rows]. apply bind_raise.
    rewrite loop_body_unfold. simpl cap_reached. cbv iota.
    pose proof (transform_null_read fromisoformat bad) as Hraise.
    rewrite Hbad in Hraise. now rewrite Hraise.
  - simpl in Hcat. repeat split; assumption.
Qed.

Lemma last_write_filters (k : string) (ops : list UpdateOne) :
  is_Some (last_write k ops) <-> k ∈ map uo_filter ops.
Proof.
  induction ops as [|op ops IH]; simpl.
  - split; [intros [d Hd]; discriminate | intros H; inversion H].
  - rewrite elem_of_cons, <- IH.
    destruct (last_write k ops) as [d|]; [split; eauto|].
    destruct (decide (uo_filter op = k)) as [<-|Hne].
    + split; eauto.
    + split; [intros [d Hd]; discriminate|].
      intros [Heq | [d Hd]]; [congruence | discriminate].
Qed.

(** X17. When no write is rejected and the server keeps the order of a
    bulk (or no key comes twice among the accepted rows), a run over
    string-valued rows leaves one document per key: the keys of the collection are those it had and
    those of the accepted rows, and under each key of an accepted row
    the document has the fields of the last such row in the feed, over
    whatever other fields it had before. *)
Theorem last_row_wins (max_rows : option Z) (batch_size : Z)
    (reader : list RawRow) (w : World) :
  (∀ c op, write_error c op = false) ->
  forallb string_valued reader = true ->
  source_ordered write_rank
  ∨ NoDup (accepted_keys fromisoformat (rows_within max_rows 0 reader)) ->
  let ops := intents fromisoformat utcnow (rows_within max_rows 0 reader)
               (ticks w) in
  ∃ unread w',
    ingest max_rows batch_size reader w = (Ok unread, w') ∧
    dom (collection w')
    = dom (collection w) ∪ list_to_set (map uo_filter ops) ∧
    ∀ k,
      collection w' !! k
      = match last_write k ops with
        | Some d => Some (d ∪ default ∅ (collection w !! k))
        | None => collection w !! k
        end.
Proof.
  intros Hnoerr Hrows Horder ops.
  destruct (ingest_upserts Hnoerr max_rows batch_size reader w Hrows Horder)
    as (unread & w' & ins & upd & skip & total & Hing & _ & Hc & _).
  fold ops in Hc.
  pose proof (intents_record (rows_within max_rows 0 reader) (ticks w))
    as Hgood. fold ops in Hgood.
  assert (Hlook : ∀ k,
            collection w' !! k
            = match last_write k ops with
              | Some d => Some (d ∪ default ∅ (collection w !! k))
              | None => collection w !! k
              end).
  { intros k. rewrite Hc. now apply fold_upsert_lookup. }
  exists unread, w'. split; [exact Hing|]. split; [|exact Hlook].
  apply set_eq. intros k.
  rewrite elem_of_union, !elem_of_dom, elem_of_list_to_set, Hlook.
  rewrite <- last_write_filters.
  destruct (last_write k ops) as [d|]; split; eauto.
  - intros [H | [d H]]; [exact H | discriminate].
Qed.

(** X7. When every connection attempt fails, the run ends with the fatal
    error after the three attempts of the default retry limit, before any
    row is processed: nothing is transformed or written and no report is
    printed. *)
Theorem source_down_aborts_run (max_rows : option Z) (batch_size : Z)
    (w : World) :
  (∀ n, http_get n = None) ->
  ∃ w' new,
    run max_rows batch_size w = (Raise RuntimeError, w') ∧
    collection w' = collection w ∧ ticks w' = ticks w ∧
    trace w' = trace w ++ new ∧
    net_events new = [EvGet; EvSleep 5; EvGet; EvSleep 10; EvGet] ∧
    commits new = [] ∧ existsb is_done new = false.
Proof.
  intros Hdown. unfold PhishTankETL.run, _fetch_csv.
  change (range 3) with [0; 1; 2]. cbn [fetch_attempts].
  unfold mbind, M_bind, requests_get, print, sleep, raise. simpl.
  rewrite !Hdown. simpl.
  eexists _, [_; _; _; _; _; _; _; _; _; _].
  split; [reflexivity|]. split; [reflexivity|]. split; [reflexivity|].
  split; [simpl; rewrite <- !app_assoc; reflexivity|].
  repeat split; reflexivity.
Qed.

Lemma singleton_batches (bs : list (list UpdateOne)) :
  Forall (fun b => length b = 1%nat) bs ->
  bs = map (fun op => [op]) (concat bs).
Proof.
  induction 1 as [|b bs Hb Hbs IH]; [reflexivity|].
  destruct b as [|op [|op' b]]; try discriminate. simpl. now rewrite <- IH.
Qed.

(** X14. With a batch size of 1 or less (0 and negative sizes included) the
    loop commits every accepted record on its own, in order, and the
    final flush has nothing left to write. *)
Theorem small_batch_commits_each_record (max_rows : option Z)
    (batch_size : Z) (reader : list RawRow) (w : World) :
  batch_size <= 1 ->
  forallb string_valued reader = true ->
  ∃ unread w' new,
    ingest max_rows batch_size reader w = (Ok unread, w') ∧
    trace w' = trace w ++ new ∧
    commits new
    = map (fun op => [op])
        (intents fromisoformat utcnow (rows_within max_rows 0 reader)
           (ticks w)).
Proof.
  intros Hsmall Hrows.
  destruct (for_rows_batches max_rows batch_size reader Hrows fresh w)
    as (l & unread & w1 & new & Hloop & Htr & Hall & Hp & Hcat).
  { simpl. unfold effective_batch. lia. }
  destruct (ingest_after_loop _ _ _ _ _ _ _ Hloop)
    as (l' & w2 & Hf & _ & _ & Hrun).
  assert (Heff : effective_batch batch_size = 1%nat)
    by (unfold effective_batch; lia).
  rewrite Heff in Hall, Hp.
  assert (Hpend : pending_ops l = [])
    by (destruct (pending_ops l); [reflexivity | simpl in Hp; lia]).
  rewrite flush_unfold, Hpend in Hf. injection Hf as _ <-.
  rewrite Hpend, app_nil_r in Hcat. simpl in Hcat.
  eexists unread, _, (new ++ [EvPrint _]). split; [exact Hrun|].
  split; [simpl; rewrite Htr; now rewrite <- app_assoc|].
  rewrite commits_app. simpl. rewrite app_nil_r, <- Hcat.
  now apply singleton_batches.
Qed.

Lemma for_rows_all_blank (batch_size : Z) (reader : list RawRow) :
  forallb string_valued reader = true ->
  forallb blank_required reader = true ->
  ∀ (l : Locals) (w : World),
    for_rows None batch_size reader l w
    = (Ok (mkLocals (pending_ops l) (inserted l) (updated l)
             (skipped l + Z.of_nat (length reader))
             (processed l + Z.of_nat (length reader)), []), w).
Proof.
  induction reader as [|row rest IH]; intros Hrows Hblank l w.
  - simpl. rewrite !Z.add_0_r. destruct l; reflexivity.
  - simpl in Hrows, Hblank.
    apply andb_true_iff in Hrows as [Hrow Hrest].
    apply andb_true_iff in Hblank as [Hb Hbs].
    pose proof (transform_blank_required row Hrow) as Htr.
    rewrite Hb in Htr.
    assert (Hbody : loop_body None batch_size row l w
                    = (Ok (Continue, skip_row l), w))
      by (rewrite loop_body_unfold, Htr; reflexivity).
    rewrite (for_rows_cons _ _ _ _ _ _ _ _ Hbody), IH by assumption.
    simpl.
    replace (Z.of_nat (S (length rest))) with (1 + Z.of_nat (length rest))
      by lia.
    now rewrite !Z.add_assoc.
Qed.

(** X15. A feed without a single acceptable row, the empty feed included,
    writes nothing: the store is not called, the clock is not read, and
    the report counts every row as skipped. *)
Theorem blank_feed_writes_nothing (batch_size : Z) (reader : list RawRow)
    (w : World) :
  forallb string_valued reader = true ->
  forallb blank_required reader = true ->
  ingest None batch_size reader w
  = (Ok [],
     emit (EvPrint (LDone 0 0 (Z.of_nat (length reader))
                      (Z.of_nat (length reader)))) w).
Proof.
  intros Hrows Hblank. unfold PhishTankETL.ingest. fold fresh.
  rewrite (bind_ok _ _ _ _ _
             (for_rows_all_blank batch_size reader Hrows Hblank fresh w)).
  reflexivity.
Qed.

Lemma fold_upsert_dom (ops : list UpdateOne) :
  ∀ c : gmap string Doc,
    dom (fold_left upsert ops c)
    = dom c ∪ list_to_set (map uo_filter ops).
Proof.
  induction ops as [|op ops IH]; intros c; simpl.
  - apply set_eq. intros k. rewrite elem_of_union, elem_of_empty. tauto.
  - rewrite IH. unfold upsert. rewrite dom_insert_L.
    apply set_eq. intros k. rewrite !elem_of_union. tauto.
Qed.

(** X18. When no write is rejected and the server keeps the order of a
    bulk (or no key comes twice among the accepted rows), the report of a
    run over string-valued rows tells new keys from known ones: [inserted] is the number of
    distinct keys among the accepted rows that the collection did not
    have, and [updated] is the number of all other accepted rows,
    repeats of a key within the feed included. *)
Theorem inserted_counts_new_keys (max_rows : option Z) (batch_size : Z)
    (reader : list RawRow) (w : World) :
  (∀ c op, write_error c op = false) ->
  forallb string_valued reader = true ->
  source_ordered write_rank
  ∨ NoDup (accepted_keys fromisoformat (rows_within max_rows 0 reader)) ->
  let ops := intents fromisoformat utcnow (rows_within max_rows 0 reader)
               (ticks w) in
  let new_keys : gset string :=
    list_to_set (map uo_filter ops) ∖ dom (collection w) in
  ∃ unread w' skip total,
    ingest max_rows batch_size reader w = (Ok unread, w') ∧
    reported w'
    = Some (Z.of_nat (size new_keys),
            Z.of_nat (length ops) - Z.of_nat (size new_keys),
            skip, total).
Proof.
  intros Hnoerr Hrows Horder ops new_keys.
  destruct (ingest_upserts Hnoerr max_rows batch_size reader w Hrows Horder)
    as (unread & w' & ins & upd & skip & total
        & Hing & Hrep & Hc & Hins & Hall & _).
  fold ops in Hc, Hall.
  exists unread, w', skip, total. split; [exact Hing|].
  assert (Hnew : ins = Z.of_nat (size new_keys)).
  { rewrite Hins, <- !size_dom, Hc, fold_upsert_dom, size_union_alt.
    fold new_keys. lia. }
  assert (Hupd : upd = Z.of_nat (length ops) - Z.of_nat (size new_keys))
    by lia.
  now rewrite Hrep, Hnew, Hupd.
Qed.

Lemma flush_ticks (l l' : Locals) (w w' : World) :
  flush l w = (Ok l', w') -> ticks w' = ticks w.
Proof.
  rewrite flush_unfold. destruct (pending_ops l); intros [= _ <-];
    [reflexivity | apply after_commit_ticks].
Qed.

(** The skipped and processed counts and the clock at the end of an
    ingestion of string-valued rows do not depend on the batch size. *)
Lemma ingest_counts_any_batch (max_rows : option Z) (batch_size : Z)
    (reader unread : list RawRow) (w w' : World)
    (ins upd skip total : Z) :
  forallb string_valued reader = true ->
  ingest max_rows batch_size reader w = (Ok unread, w') ->
  reported w' = Some (ins, upd, skip, total) ->
  let rows := rows_within max_rows 0 reader in
  total = Z.of_nat (length rows) ∧
  skip = Z.of_nat (length (List.filter blank_required rows)) ∧
  (ticks w' + length (List.filter blank_required rows)
   = ticks w + length rows)%nat.
Proof.
  intros Hrows Hing Hrep rows.
  destruct (for_rows_counts max_rows batch_size reader Hrows fresh w)
    as (l & u & w1 & Hloop & Hp & Hs & Ht).
  destruct (ingest_after_loop _ _ _ _ _ _ _ Hloop)
    as (l' & w2 & Hf & Hs' & Hp' & Hrun).
  apply flush_ticks in Hf.
  rewrite Hing in Hrun. injection Hrun as _ ->.
  rewrite reported_emit_done in Hrep. injection Hrep as _ _ <- <-.
  simpl in Hp, Hs, Ht. fold rows in Hp, Hs, Ht. simpl ticks.
  rewrite Hs', Hp', Hf. repeat split; assumption.
Qed.

(** X19. When no write is rejected and the server keeps the order of a
    bulk (or no key comes twice among the accepted rows), the batch size
    is immaterial to the outcome of a run over string-valued rows: with any two batch sizes
    the collection, the report and the clock end up the same. *)
Theorem batch_size_is_immaterial (max_rows : option Z)
    (batch_size1 batch_size2 : Z) (reader : list RawRow) (w : World) :
  (∀ c op, write_error c op = false) ->
  forallb string_valued reader = true ->
  source_ordered write_rank
  ∨ NoDup (accepted_keys fromisoformat (rows_within max_rows 0 reader)) ->
  ∃ unread1 unread2 w1 w2,
    ingest max_rows batch_size1 reader w = (Ok unread1, w1) ∧
    ingest max_rows batch_size2 reader w = (Ok unread2, w2) ∧
    collection w1 = collection w2 ∧
    reported w1 = reported w2 ∧
    ticks w1 = ticks w2.
Proof.
  intros Hnoerr Hrows Horder.
  destruct (ingest_upserts Hnoerr max_rows batch_size1 reader w Hrows Horder)
    as (u1 & w1 & ins1 & upd1 & skip1 & total1
        & Hing1 & Hrep1 & Hc1 & Hins1 & Hall1 & _).
  destruct (ingest_upserts Hnoerr max_rows batch_size2 reader w Hrows Horder)
    as (u2 & w2 & ins2 & upd2 & skip2 & total2
        & Hing2 & Hrep2 & Hc2 & Hins2 & Hall2 & _).
  destruct (ingest_counts_any_batch _ _ _ _ _ _ _ _ _ _ Hrows Hing1 Hrep1)
    as (Ht1 & Hs1 & Hk1).
  destruct (ingest_counts_any_batch _ _ _ _ _ _ _ _ _ _ Hrows Hing2 Hrep2)
    as (Ht2 & Hs2 & Hk2).
  exists u1, u2, w1, w2. split; [exact Hing1|]. split; [exact Hing2|].
  assert (Hc : collection w1 = collection w2) by (now rewrite Hc1, Hc2).
  split; [exact Hc|]. split; [|lia].
  rewrite Hrep1, Hrep2. rewrite Hc in Hins1.
  assert (ins1 = ins2) as -> by lia.
  assert (upd1 = upd2) as -> by lia.
  now rewrite Ht1, Ht2, Hs1, Hs2.
Qed.

End OrchestratorProperties.

Lemma row_cap_is_a_ceiling_witness :
  ∃ w' ins upd skip total,
    ingest sample_iso sample_clock no_write_error source_order (Some 3) 1000 ten_rows
      empty_world = (Ok (drop 4 ten_rows), w') ∧
    reported w' = Some (ins, upd, skip, total) ∧
    total = Z.min 3 10 ∧ total <= 3.
Proof.
  apply (row_cap_is_a_ceiling sample_iso sample_clock no_write_error source_order
           3 1000 ten_rows empty_world).
  - lia.
  - reflexivity.
Defined.

(** C3 as stated fails on the code: with [max_rows = 3] and ten valid
    rows the run reports 3 processed and 0 skipped, but the rows left
    unread are rows 5 to 10; row 4 has been read. *)
Lemma row_cap_reads_one_row_more :
  ∃ w' ins upd,
    ingest sample_iso sample_clock no_write_error source_order (Some 3) 1000 ten_rows
      empty_world = (Ok (drop 4 ten_rows), w') ∧
    reported w' = Some (ins, upd, 0, 3) ∧
    drop 4 ten_rows ≠ drop 3 ten_rows.
Proof.
  eexists _, _, _. split; [vm_compute; reflexivity|].
  split; [vm_compute; reflexivity|].
  intros H. apply (f_equal (@length RawRow)) in H. vm_compute in H.
  discriminate.
Qed.

Lemma zero_cap_is_no_cap_witness :
  ∃ w' ins upd skip,
    ingest sample_iso sample_clock no_write_error source_order (Some 0) 4 ten_rows
      empty_world = (Ok [], w') ∧
    reported w' = Some (ins, upd, skip, 10).
Proof.
  apply (zero_cap_is_no_cap sample_iso sample_clock (fun _ => None)
           no_write_error source_order 4 ten_rows empty_world).
  reflexivity.
Defined.

Lemma failed_bulk_is_absorbed_witness :
  let ops := [upsert_of (record "1" "a" None "yes" 0);
              upsert_of (record "2" "b" None "yes" 1)] in
  ∃ w',
    _commit_batch reject_two source_order ops empty_world = (Ok (0, 0), w') ∧
    trace w' = [EvBulkWrite ops; EvPrint (LBulkWriteError ["2"])] ∧
    dom (collection w') = {["1"]}.
Proof.
  intros ops.
  destruct (failed_bulk_is_absorbed sample_iso sample_clock reject_two source_order
              ops empty_world ["2"]) as [H _].
  - vm_compute. reflexivity.
  - eexists. split; [exact H|]. split; [reflexivity|].
    vm_compute. reflexivity.
Defined.

Lemma batches_committed_witness :
  ∃ unread w',
    ingest sample_iso sample_clock no_write_error source_order None 2 five_rows empty_world
    = (Ok unread, w') ∧
    map (@length UpdateOne) (commits (trace w')) = [2; 2; 1]%nat ∧
    concat (commits (trace w'))
    = intents sample_iso sample_clock five_rows 0.
Proof.
  destruct (batches_committed sample_iso sample_clock no_write_error source_order
              None 2 five_rows empty_world)
    as (unread & w' & new & full & final & Hrun & Htr & _ & _ & _ & Hcat).
  - reflexivity.
  - exists unread, w'. split; [exact Hrun|].
    split; [|simpl in Htr; rewrite Htr; exact Hcat].
    vm_compute in Hrun. injection Hrun as _ Hw'. subst w'.
    vm_compute. reflexivity.
Defined.

Lemma run_writes_record_fields_only_witness :
  ∃ w' doc,
    run sample_iso sample_clock (fun _ => Some five_rows) no_write_error source_order
      None 2 annotated_world = (Ok tt, w') ∧
    collection w' !! "1" = Some doc ∧
    doc !! "note" = Some (BStr "kept") ∧
    doc !! "url" = Some (BStr "http://a.example").
Proof.
  destruct (run sample_iso sample_clock (fun _ => Some five_rows)
              no_write_error source_order None 2 annotated_world) as [r w'] eqn:Hrun.
  destruct (run_writes_record_fields_only sample_iso sample_clock
              (fun _ => Some five_rows) no_write_error source_order None 2
              annotated_world r w' Hrun) as [Hframed _].
  destruct (Hframed "1" {[ "phish_id" := BStr "1"; "url" := BStr "old";
                           "note" := BStr "kept" ]} eq_refl)
    as (doc & Hdoc & Hkeep).
  exists w', doc. vm_compute in Hrun. injection Hrun as <- <-.
  split; [reflexivity|]. split; [exact Hdoc|].
  split.
  - rewrite Hkeep; [reflexivity|]. vm_compute. inversion 1; subst.
    repeat match goal with
           | H : _ ∈ _ |- _ => inversion H; clear H; subst
           end.
  - vm_compute in Hdoc. injection Hdoc as <-. vm_compute. reflexivity.
Defined.



(** ** Further properties of the fetcher *)

Section FetcherEdgeCases.

Variable http_get : nat -> option (list RawRow).
Variables retries backoff : Z.

(** The loop of [_fetch_csv] when the attempt [j] places ahead is the
    first to succeed. *)
Lemma fetch_attempts_up (reader : list RawRow) (j : nat) :
  0 <= backoff ->
  ∀ (a n : nat) (w : World),
    (j < n)%nat ->
    Z.of_nat a + Z.of_nat n = retries ->
    (∀ i, (i < j)%nat -> http_get (requests w + i) = None) ->
    http_get (requests w + j) = Some reader ->
    ∃ w' new,
      fetch_attempts http_get retries backoff (map Z.of_nat (seq a n)) w
        = (Ok reader, w') ∧
      collection w' = collection w ∧ ticks w' = ticks w ∧
      requests w' = (requests w + S j)%nat ∧
      trace w' = trace w ++ new ∧
      net_events new
      = flat_map (fun i => [EvGet; EvSleep (backoff * Z.of_nat i)])
                 (seq (S a) j) ++ [EvGet].
Proof.
  intros Hb. induction j as [|j IH]; intros a n w Hn Hr Hdown Hup;
    (destruct n as [|n]; [lia|]); cbn [seq map fetch_attempts];
    unfold mbind at 1, M_bind at 1, requests_get at 1.
  - rewrite Nat.add_0_r in Hup. rewrite Hup.
    eexists _, [EvGet]. split; [reflexivity|]. simpl.
    repeat split; try reflexivity. lia.
  - rewrite <- (Nat.add_0_r (requests w)), (Hdown 0%nat) by lia.
    unfold mbind at 1, M_bind at 1, print at 1.
    assert (Hmore : (Z.of_nat a <? retries - 1) = true) by lia.
    rewrite Hmore.
    assert (Hw : (backoff * (Z.of_nat a + 1) <? 0) = false) by nia.
    erewrite (bind_ok (print _ ≫= _));
      [|unfold mbind, M_bind, print, sleep; rewrite Hw; reflexivity].
    match goal with |- context [fetch_attempts _ _ _ _ ?w1] =>
      destruct (IH (S a) n w1) as (w' & new & Hrun & Hc & Ht & Hq & Htr & Hnet)
    end.
    + lia.
    + lia.
    + intros i Hi. simpl. rewrite Nat.add_0_r.
      replace (S (requests w + i)) with (requests w + S i)%nat by lia.
      apply Hdown. lia.
    + simpl. rewrite Nat.add_0_r.
      replace (S (requests w + j)) with (requests w + S j)%nat by lia.
      exact Hup.
    + exists w',
        ([EvGet; EvPrint (LFetchFailed (Z.of_nat a + 1));
          EvPrint (LRetrying (backoff * (Z.of_nat a + 1)));
          EvSleep (backoff * (Z.of_nat a + 1))] ++ new).
      split; [exact Hrun|]. split; [rewrite Hc; reflexivity|].
      split; [rewrite Ht; reflexivity|].
      split; [rewrite Hq; simpl; lia|].
      split; [rewrite Htr; simpl; rewrite <- !app_assoc; reflexivity|].
      replace (Z.of_nat a + 1) with (Z.of_nat (S a)) by lia.
      change (net_events (_ ++ new))
        with (EvGet :: EvSleep (backoff * Z.of_nat (S a)) :: net_events new).
      rewrite Hnet. reflexivity.
Qed.

(** X4. When the first [j] attempts fail and the next one succeeds within
    the retry limit, [_fetch_csv] returns the rows of that response after
    exactly [j + 1] requests, having slept [backoff * i] after the i-th
    failure; the collection and the clock are not touched. *)
Theorem fetch_succeeds_after_failures (reader : list RawRow) (j : nat)
    (w : World) :
  0 <= backoff -> Z.of_nat j < retries ->
  (∀ i, (i < j)%nat -> http_get (requests w + i) = None) ->
  http_get (requests w + j) = Some reader ->
  ∃ w' new,
    _fetch_csv http_get retries backoff w = (Ok reader, w') ∧
    collection w' = collection w ∧ ticks w' = ticks w ∧
    requests w' = (requests w + S j)%nat ∧
    trace w' = trace w ++ new ∧
    net_events new
    = flat_map (fun i => [EvGet; EvSleep (backoff * Z.of_nat i)]) (seq 1 j)
      ++ [EvGet].
Proof.
  intros Hb Hj Hdown Hup. unfold _fetch_csv, range.
  apply (fetch_attempts_up reader j Hb 0%nat (Z.to_nat retries) w);
    [lia | lia | exact Hdown | exact Hup].
Qed.

Lemma fetch_attempts_bound (todo : list Z) :
  ∀ w r w',
    fetch_attempts http_get retries backoff todo w = (r, w') ->
    ∃ new,
      trace w' = trace w ++ new ∧
      (attempts new <= length todo)%nat ∧
      requests w' = (requests w + attempts new)%nat ∧
      ∀ reader, r = Ok reader ->
        (0 < attempts new)%nat ∧
        http_get (requests w' - 1) = Some reader.
Proof.
  induction todo as [|attempt later IH]; intros w r w' Hrun.
  - cbn [fetch_attempts] in Hrun. unfold raise in Hrun.
    injection Hrun as <- <-. exists []. rewrite app_nil_r.
    unfold attempts. simpl.
    split; [reflexivity|]. split; [lia|]. split; [lia|]. intros rd [=].
  - cbn [fetch_attempts] in Hrun.
    unfold mbind at 1, M_bind at 1, requests_get at 1 in Hrun.
    destruct (http_get (requests w)) as [reader|] eqn:Hget.
    + injection Hrun as <- <-. exists [EvGet]. unfold attempts. simpl.
      split; [reflexivity|]. split; [lia|]. split; [lia|].
      intros rd [= <-]. split; [lia|]. rewrite Nat.sub_0_r. exact Hget.
    + unfold mbind at 1, M_bind at 1, print at 1 in Hrun.
      unfold mbind at 1, M_bind at 1 in Hrun.
      destruct (attempt <? retries - 1).
      * unfold mbind at 1, M_bind at 1, print at 1, sleep in Hrun.
        destruct (backoff * (attempt + 1) <? 0).
        -- unfold raise in Hrun. injection Hrun as <- <-.
           eexists [EvGet; _; _].
           split; [simpl; now rewrite <- !app_assoc|].
           unfold attempts. simpl.
           split; [lia|]. split; [lia|]. intros rd [=].
        -- apply IH in Hrun as (new & Htr & Hle & Hq & Hok).
           eexists (EvGet :: _ :: _ :: _ :: new).
           split; [rewrite Htr; simpl; now rewrite <- !app_assoc|].
           unfold attempts in *. simpl in *.
           repeat split; try lia; apply Hok; assumption.
      * apply IH in Hrun as (new & Htr & Hle & Hq & Hok).
        eexists (EvGet :: _ :: new).
        split; [rewrite Htr; simpl; now rewrite <- !app_assoc|].
        unfold attempts in *. simpl in *.
        repeat split; try lia; apply Hok; assumption.
Qed.

(** X5. However the requests go, [_fetch_csv] sends at most [retries]
    requests, and a reader it returns is the response to the last request
    it sent; with a retry limit of 0 or less it sends none and raises
    the fatal error at once. *)
Theorem fetch_sends_at_most_retries (w : World) :
  (retries <= 0 ->
   _fetch_csv http_get retries backoff w = (Raise RuntimeError, w)) ∧
  ∀ r w',
    _fetch_csv http_get retries backoff w = (r, w') ->
    ∃ new,
      trace w' = trace w ++ new ∧
      (attempts new <= Z.to_nat retries)%nat ∧
      requests w' = (requests w + attempts new)%nat ∧
      ∀ reader, r = Ok reader ->
        (0 < attempts new)%nat ∧
        http_get (requests w' - 1) = Some reader.
Proof.
  split.
  - intros Hr. unfold _fetch_csv, range.
    replace (Z.to_nat retries) with 0%nat by lia. reflexivity.
  - intros r w' Hrun. unfold _fetch_csv in Hrun.
    apply fetch_attempts_bound in Hrun as (new & Htr & Hle & Hrest).
    exists new. split; [exact Htr|]. split; [|exact Hrest].
    unfold range in Hle. now rewrite length_map, length_seq in Hle.
Qed.

(** X6. With a negative backoff unit and room for a retry, the first failed
    attempt ends the fetch: [time.sleep] rejects the negative wait, and
    its ValueError leaves [_fetch_csv] after a single request, without a
    second attempt and without the fatal RuntimeError. *)
Theorem fetch_negative_backoff_aborts (w : World) :
  backoff < 0 -> 2 <= retries -> http_get (requests w) = None ->
  ∃ w' new,
    _fetch_csv http_get retries backoff w = (Raise ValueError, w') ∧
    requests w' = S (requests w) ∧
    trace w' = trace w ++ new ∧
    attempts new = 1%nat ∧ sleeps new = [].
Proof.
  intros Hb Hr Hget. unfold _fetch_csv, range.
  destruct (Z.to_nat retries) as [|n] eqn:Hn; [lia|].
  cbn [seq map fetch_attempts].
  unfold mbind at 1, M_bind at 1, requests_get at 1. rewrite Hget.
  unfold mbind at 1, M_bind at 1, print at 1.
  assert (Hmore : (Z.of_nat 0 <? retries - 1) = true)
    by (apply Z.ltb_lt; simpl; lia).
  rewrite Hmore.
  assert (Hw : (backoff * (Z.of_nat 0 + 1) <? 0) = true)
    by (apply Z.ltb_lt; simpl; lia).
  erewrite (bind_raise (print _ ≫= _));
    [|unfold mbind, M_bind, print, sleep; rewrite Hw; reflexivity].
  eexists _, [EvGet; _; _].
  split; [reflexivity|]. split; [reflexivity|].
  split; [simpl; now rewrite <- !app_assoc|]. split; reflexivity.
Qed.

End FetcherEdgeCases.

Lemma fetch_succeeds_after_failures_witness :
  ∃ w' new,
    _fetch_csv third_time_lucky 3 5 empty_world = (Ok five_rows, w') ∧
    collection w' = collection empty_world ∧ ticks w' = ticks empty_world ∧
    requests w' = 3%nat ∧
    trace w' = trace empty_world ++ new ∧
    net_events new = [EvGet; EvSleep 5; EvGet; EvSleep 10; EvGet].
Proof.
  apply (fetch_succeeds_after_failures third_time_lucky 3 5 five_rows 2
           empty_world).
  - lia.
  - lia.
  - intros i Hi. simpl. unfold third_time_lucky.
    destruct (Nat.ltb_spec i 2); [reflexivity | lia].
  - reflexivity.
Defined.

Lemma fetch_sends_at_most_retries_witness :
  ∃ new,
    trace (_fetch_csv third_time_lucky 2 5 empty_world).2
    = trace empty_world ++ new ∧
    (attempts new <= 2)%nat.
Proof.
  destruct (_fetch_csv third_time_lucky 2 5 empty_world) as [r w'] eqn:Hrun.
  destruct (fetch_sends_at_most_retries third_time_lucky 2 5 empty_world)
    as [_ H].
  destruct (H r w' Hrun) as (new & Htr & Hle & _).
  exists new. split; [exact Htr | exact Hle].
Defined.

Lemma fetch_negative_backoff_aborts_witness :
  ∃ w' new,
    _fetch_csv third_time_lucky 3 (-5) empty_world = (Raise ValueError, w') ∧
    requests w' = 1%nat ∧
    trace w' = trace empty_world ++ new ∧
    attempts new = 1%nat ∧ sleeps new = [].
Proof.
  apply (fetch_negative_backoff_aborts third_time_lucky 3 (-5) empty_world).
  - lia.
  - lia.
  - reflexivity.
Defined.

Lemma run_commits_nonempty_batches_witness :
  ∃ new,
    trace (run sample_iso sample_clock (fun _ => Some five_rows)
             reject_two source_order None 0 empty_world).2
    = trace empty_world ++ new ∧
    Forall (fun b : list UpdateOne => b ≠ []) (commits new).
Proof.
  destruct (run sample_iso sample_clock (fun _ => Some five_rows)
              reject_two source_order None 0 empty_world) as [r w'] eqn:Hrun.
  exact (run_commits_nonempty_batches sample_iso sample_clock
           (fun _ => Some five_rows) reject_two source_order None 0 empty_world r w'
           Hrun).
Defined.

Lemma run_keeps_documents_keyed_witness :
  keyed (collection
           (run sample_iso sample_clock (fun _ => Some five_rows)
              reject_two source_order None 2 annotated_world).2).
Proof.
  destruct (run sample_iso sample_clock (fun _ => Some five_rows)
              reject_two source_order None 2 annotated_world) as [r w'] eqn:Hrun.
  apply (run_keeps_documents_keyed sample_iso sample_clock
           (fun _ => Some five_rows) reject_two source_order None 2 annotated_world r w');
    [|exact Hrun].
  intros k d H. simpl in H.
  apply lookup_singleton_Some in H as [<- <-]. reflexivity.
Defined.

Lemma report_is_a_lower_bound_witness :
  ∃ w',
    ingest sample_iso sample_clock reject_two source_order None 2 five_rows empty_world
    = (Ok [], w') ∧
    reported w' = Some (3, 0, 0, 5).
Proof.
  destruct (ingest sample_iso sample_clock reject_two source_order None 2 five_rows
              empty_world) as [[unread|e] w'] eqn:Hrun;
    [|vm_compute in Hrun; discriminate].
  destruct (report_is_a_lower_bound sample_iso sample_clock reject_two source_order
              None 2 five_rows unread empty_world w' Hrun)
    as (ins & upd & skip & total & Hrep & _).
  exists w'. vm_compute in Hrun. injection Hrun as <- <-.
  split; reflexivity.
Defined.

Lemma report_counts_rows_witness :
  ∃ unread w' ins upd,
    ingest sample_iso sample_clock no_write_error source_order None 2 gappy_feed
      empty_world = (Ok unread, w') ∧
    reported w' = Some (ins, upd, 1, 3) ∧
    (ticks w' + 1 = 0 + 3)%nat.
Proof.
  apply (report_counts_rows sample_iso sample_clock no_write_error source_order None 2
           gappy_feed empty_world).
  reflexivity.
Defined.

Lemma negative_cap_processes_nothing_witness :
  ingest sample_iso sample_clock no_write_error source_order (Some (-1)) 2 five_rows
    empty_world
  = (Ok (drop 1 five_rows), emit (EvPrint (LDone 0 0 0 0)) empty_world).
Proof.
  apply (negative_cap_processes_nothing sample_iso sample_clock
           no_write_error source_order (-1) 2 five_rows empty_world).
  lia.
Defined.

Lemma cap_within_batch_commits_once_witness :
  ∃ w' new,
    run sample_iso sample_clock (fun _ => Some ten_rows) no_write_error source_order
      (Some 500) 500 empty_world = (Ok tt, w') ∧
    trace w' = trace empty_world ++ new ∧
    (length (commits new) <= 1)%nat ∧
    Z.of_nat (length (concat (commits new))) <= 500.
Proof.
  apply (cap_within_batch_commits_once sample_iso sample_clock
           (fun _ => Some ten_rows) no_write_error source_order 500 500 ten_rows
           empty_world).
  - lia.
  - reflexivity.
  - reflexivity.
Defined.

Lemma null_row_aborts_run_witness :
  ∃ l w' new,
    for_rows sample_iso sample_clock no_write_error source_order None 2
      (take 3 ten_rows) fresh empty_world = (Ok (l, []), w') ∧
    ingest sample_iso sample_clock no_write_error source_order None 2
      (take 3 ten_rows ++ short_row :: drop 3 ten_rows) empty_world
    = (Raise AttributeError, w') ∧
    trace w' = trace empty_world ++ new ∧
    existsb is_done new = false ∧
    Forall (fun b => length b = effective_batch 2) (commits new) ∧
    concat (commits new) ++ pending_ops l
    = intents sample_iso sample_clock (take 3 ten_rows) 0 ∧
    (length (pending_ops l) < effective_batch 2)%nat.
Proof.
  apply (null_row_aborts_run sample_iso sample_clock no_write_error source_order 2
           (take 3 ten_rows) (drop 3 ten_rows) short_row empty_world).
  - reflexivity.
  - reflexivity.
Defined.

Lemma last_row_wins_witness :
  ∃ unread w' doc,
    ingest sample_iso sample_clock no_write_error source_order None 2 duplicate_feed
      empty_world = (Ok unread, w') ∧
    size (collection w') = 2%nat ∧
    collection w' !! "1" = Some doc ∧
    doc !! "url" = Some (BStr "http://new.example").
Proof.
  destruct (last_row_wins sample_iso sample_clock no_write_error source_order None 2
              duplicate_feed empty_world)
    as (unread & w' & Hrun & Hdom & Hlook).
  - intros c op. reflexivity.
  - reflexivity.
  - left. intros c ops i. reflexivity.
  - specialize (Hlook "1"). vm_compute in Hrun. injection Hrun as <- <-.
    eexists _, _, _. split; [reflexivity|].
    split; [vm_compute; reflexivity|].
    split; [exact Hlook|]. vm_compute. reflexivity.
Defined.

Lemma source_down_aborts_run_witness :
  ∃ w' new,
    run sample_iso sample_clock (fun _ => None) no_write_error source_order None 2
      annotated_world = (Raise RuntimeError, w') ∧
    collection w' = collection annotated_world ∧
    ticks w' = ticks annotated_world ∧
    trace w' = trace annotated_world ++ new ∧
    net_events new = [EvGet; EvSleep 5; EvGet; EvSleep 10; EvGet] ∧
    commits new = [] ∧ existsb is_done new = false.
Proof.
  apply (source_down_aborts_run sample_iso sample_clock (fun _ => None)
           no_write_error source_order None 2 annotated_world).
  intros n. reflexivity.
Defined.

Lemma small_batch_commits_each_record_witness :
  ∃ unread w' new,
    ingest sample_iso sample_clock no_write_error source_order None 0 gappy_feed
      empty_world = (Ok unread, w') ∧
    trace w' = trace empty_world ++ new ∧
    commits new
    = map (fun op => [op]) (intents sample_iso sample_clock gappy_feed 0).
Proof.
  apply (small_batch_commits_each_record sample_iso sample_clock
           no_write_error source_order None 0 gappy_feed empty_world).
  - lia.
  - reflexivity.
Defined.

Lemma blank_feed_writes_nothing_witness :
  ingest sample_iso sample_clock no_write_error source_order None 2 blank_feed
    annotated_world
  = (Ok [], emit (EvPrint (LDone 0 0 2 2)) annotated_world).
Proof.
  apply (blank_feed_writes_nothing sample_iso sample_clock no_write_error source_order
           2 blank_feed annotated_world).
  - reflexivity.
  - reflexivity.
Defined.

Lemma inserted_counts_new_keys_witness :
  ∃ unread w' skip total,
    ingest sample_iso sample_clock no_write_error source_order None 2 duplicate_feed
      annotated_world = (Ok unread, w') ∧
    reported w' = Some (1, 2, skip, total).
Proof.
  destruct (inserted_counts_new_keys sample_iso sample_clock no_write_error source_order
              None 2 duplicate_feed annotated_world)
    as (unread & w' & skip & total & Hrun & Hrep).
  - intros c op. reflexivity.
  - reflexivity.
  - left. intros c ops i. reflexivity.
  - exists unread, w', skip, total. split; [exact Hrun|].
    rewrite Hrep. vm_compute. reflexivity.
Defined.

Lemma batch_size_is_immaterial_witness :
  ∃ unread1 unread2 w1 w2,
    ingest sample_iso sample_clock no_write_error source_order None 1 ten_rows
      empty_world = (Ok unread1, w1) ∧
    ingest sample_iso sample_clock no_write_error source_order None 1000 ten_rows
      empty_world = (Ok unread2, w2) ∧
    collection w1 = collection w2 ∧
    reported w1 = reported w2 ∧
    ticks w1 = ticks w2.
Proof.
  apply (batch_size_is_immaterial sample_iso sample_clock no_write_error source_order
           None 1 1000 ten_rows empty_world).
  - intros c op. reflexivity.
  - reflexivity.
  - left. intros c ops i. reflexivity.
Defined.
